(** * plottr.data.datadict: the [DataDict] container

    A shallow embedding of [src/plottr/data/datadict.py] and the properties
    of its validation, structural queries and grid construction.

    A [DataDict] is a Python [dict] (insertion ordered, unique keys) from a
    field name to an inner dict with the optional keys ['axes'], ['unit']
    and ['values'].  Methods mutate the store (validation fills defaults),
    so every method is a computation in a small state-and-exception monad
    over the store. *)

From stdpp Require Import base option list strings pretty sorting gmap.

#[local] Set Warnings "-clear-no-such-hyp,-level-tolerance".

(** ** Data model *)

(** A value held in a field: a number, or the floating point
    not-a-number marker that [np.isnan] detects. *)
Inductive scalar : Type :=
  | Num (z : Z)
  | NaN.

#[global] Instance scalar_eq_dec : EqDecision scalar.
Proof. solve_decision. Defined.

Definition isnan (x : scalar) : bool :=
  match x with NaN => true | Num _ => false end.

(** The inner dict of one field; [None] is an absent key. *)
Record Field : Type := mkField {
  axes : option (list string);
  unit_ : option string;
  values : option (list scalar)
}.

#[global] Instance Field_eq_dec : EqDecision Field.
Proof. solve_decision. Defined.

(** A Python dict with string keys, in insertion order. *)
Abbreviation dict A := (list (string * A)).
Abbreviation DataDict := (dict Field).

Definition keys {A} (d : dict A) : list string := d.*1.

(** [k in d] *)
Definition contains {A} (d : dict A) (k : string) : bool :=
  bool_decide (k ∈ keys d).

Fixpoint dict_get {A} (d : dict A) (k : string) : option A :=
  match d with
  | [] => None
  | (k', v) :: d' => if decide (k' = k) then Some v else dict_get d' k
  end.

(** [d[k] = v]: replaces in place, or appends a new key at the end. *)
Fixpoint dict_set {A} (d : dict A) (k : string) (v : A) : dict A :=
  match d with
  | [] => [(k, v)]
  | (k', v') :: d' =>
      if decide (k' = k) then (k, v) :: d' else (k', v') :: dict_set d' k v
  end.

(** Python dict equality does not look at the insertion order. *)
Definition dict_eqb {A} `{EqDecision A} (d1 d2 : dict A) : bool :=
  bool_decide ((list_to_map d1 : gmap string A) = list_to_map d2).

(** ** Exceptions and the method monad *)

Inductive exn : Type :=
  | ValueError (msg : string)
  | KeyError (key : string)
  | TypeError (msg : string)
  | LibraryError (what : string).

#[global] Instance exn_eq_dec : EqDecision exn.
Proof. solve_decision. Defined.

Inductive result (A : Type) : Type :=
  | Ok (a : A)
  | Raise (e : exn).
Arguments Ok {A} a.
Arguments Raise {A} e.

(** A method body: it may mutate the store, and returns or raises. *)
Definition M (S A : Type) : Type := S → S * result A.

Definition ret {S A} (a : A) : M S A := λ s, (s, Ok a).
Definition raise {S A} (e : exn) : M S A := λ s, (s, Raise e).
Definition bind {S A B} (k : A → M S B) (m : M S A) : M S B :=
  λ s, match m s with
       | (s', Ok a) => k a s'
       | (s', Raise e) => (s', Raise e)
       end.
Definition get {S} : M S S := λ s, (s, Ok s).
Definition lift {S A} (r : result A) : M S A := λ s, (s, r).

#[global] Instance M_ret {S} : MRet (M S) := λ A, ret.
#[global] Instance M_bind {S} : MBind (M S) := λ A B, bind.

(** [d[k]], raising [KeyError] *)
Definition getitem {A} (d : dict A) (k : string) : result A :=
  match dict_get d k with
  | Some v => Ok v
  | None => Raise (KeyError k)
  end.

(** ** Messages *)

Definition nl : string := String (Ascii.ascii_of_nat 10) "".

(** [" * '{}' has axis '{}', but no data with name '{}' registered.\n"] *)
Definition axis_msg (n na : string) : string :=
  " * '" +:+ n +:+ "' has axis '" +:+ na +:+ "', but no data with name '"
    +:+ na +:+ "' registered." +:+ nl.

(** [" * '{}' has length {}, but have found {} in '{}'\n"] *)
Definition length_msg (n : string) (len nvals : nat) (nvalsrc : string) : string :=
  " * '" +:+ n +:+ "' has length " +:+ pretty len +:+ ", but have found "
    +:+ pretty nvals +:+ " in '" +:+ nvalsrc +:+ "'" +:+ nl.

(** The error kinds of the design, as the [raise] statements of the
    source produce them. *)
Definition StructuralError (msg : string) : exn := ValueError msg.
Definition LookupError (name : string) : exn :=
  ValueError ("No field '" +:+ name +:+ "' present.").
Definition CompatibilityError : exn :=
  ValueError "Incompatible data structures.".
Definition ShapeConflictError (idxn : string) : exn :=
  ValueError ("'" +:+ idxn +:+ "' used in different shapes. Arrays cannot be used as data and axis in a single grid data set.").

(** ** [validate] *)

(** The loop variables [nvals], [nvalsrc] and [msg]; [nvals] and
    [nvalsrc] are set together, by the first field. *)
Record vloop : Type := mkVloop {
  nvals : option (nat * string);
  msg : string
}.

(** [for na in v['axes']: if na not in self: msg += ...] *)
Definition check_axes (ks : list string) (n : string) (axs : list string)
    (m : string) : string :=
  foldl (λ m na, if bool_decide (na ∈ ks) then m else m +:+ axis_msg n na) m axs.

(** The three default fills of one loop iteration. *)
Definition fill_defaults (v : Field) : Field :=
  {| axes := Some (default [] (axes v));
     unit_ := Some (default "" (unit_ v));
     values := Some (default [] (values v)) |}.

(** One iteration of the loop over [self.items()]. *)
Definition validate_item (ks : list string) (st : vloop) (n : string)
    (v : Field) : vloop * Field :=
  let m1 := match axes v with
            | Some axs => check_axes ks n axs (msg st)
            | None => msg st
            end in
  let v' := fill_defaults v in
  let len := length (default [] (values v')) in
  match nvals st with
  | None => ({| nvals := Some (len, n); msg := m1 |}, v')
  | Some (nv, src) =>
      if decide (len ≠ nv)
      then ({| nvals := Some (nv, src); msg := m1 +:+ length_msg n len nv src |}, v')
      else ({| nvals := Some (nv, src); msg := m1 |}, v')
  end.

Fixpoint validate_loop (ks : list string) (st : vloop) (items : DataDict)
    : vloop * DataDict :=
  match items with
  | [] => (st, [])
  | (n, v) :: rest =>
      let '(st1, v') := validate_item ks st n v in
      let '(st2, rest') := validate_loop ks st1 rest in
      (st2, (n, v') :: rest')
  end.

Definition validate : M DataDict bool := λ self,
  let '(st, self') :=
    validate_loop (keys self) {| nvals := None; msg := nl |} self in
  if decide (msg st ≠ nl)
  then (self', Raise (ValueError (msg st)))
  else (self', Ok true).

(** ** [structure], [label], [dependents] *)

(** [v['axes']], [v['unit']], [v['values']]: a [KeyError] on an absent key *)
Definition get_axes (v : Field) : result (list string) :=
  match axes v with Some a => Ok a | None => Raise (KeyError "axes") end.
Definition get_unit (v : Field) : result string :=
  match unit_ v with Some u => Ok u | None => Raise (KeyError "unit") end.
Definition get_values (v : Field) : result (list scalar) :=
  match values v with Some x => Ok x | None => Raise (KeyError "values") end.

Definition rbind {A B} (k : A → result B) (r : result A) : result B :=
  match r with Ok a => k a | Raise e => Raise e end.

#[global] Instance result_ret : MRet result := λ A, Ok.
#[global] Instance result_bind : MBind result := λ A B, rbind.

Fixpoint rmapM {A B} (f : A → result B) (l : list A) : result (list B) :=
  match l with
  | [] => Ok []
  | x :: l' => y ← f x; ys ← rmapM f l'; Ok (y :: ys)
  end.

(** The value stored per field by [structure]: [dict(axes=.., unit=..)]. *)
Definition structure_items (self : DataDict)
    : result (dict (list string * string)) :=
  rmapM (λ '(n, v), a ← get_axes v; u ← get_unit v; Ok (n, (a, u))) self.

(** [validate] returns [True] or raises, so that the branch without
    [return] of [if self.validate():] is never taken; this holds for every
    method that begins with that test. *)
Definition structure : M DataDict (dict (list string * string)) :=
  ok ← validate ;
  if ok : bool then self ← get ; lift (structure_items self)
  else ret [].

(** [' ({})'.format(unit)] appended to a name *)
Definition with_unit (name u : string) : string :=
  name +:+ " (" +:+ u +:+ ")".

Definition label (name : string) : M DataDict string :=
  ok ← validate ;
  if ok : bool then
    self ← get ;
    if negb (contains self name) then raise (LookupError name)
    else
      v ← lift (getitem self name) ;
      u ← lift (get_unit v) ;
      if decide (u ≠ "") then ret (with_unit name u) else ret name
  else ret "".

(** [len(v.get('axes', [])) != 0] *)
Definition has_axes (v : Field) : bool :=
  bool_decide (length (default [] (axes v)) ≠ 0).

Definition dependents : M DataDict (list string) :=
  ok ← validate ;
  if ok : bool then
    self ← get ;
    ret ((filter (λ nv, has_axes nv.2) self).*1)
  else ret [].

(** ** [_value_dict] *)

(** [name]: the key of a field in the result; ['unit'] is read only when
    [use_units] is set. *)
Definition value_name (use_units : bool) (k : string) (v : Field)
    : result string :=
  if use_units then
    u ← get_unit v; Ok (if decide (u ≠ "") then with_unit k u else k)
  else Ok k.

Fixpoint value_dict_loop (use_units : bool) (items : DataDict)
    (ret : dict (list scalar)) : result (dict (list scalar)) :=
  match items with
  | [] => Ok ret
  | (k, v) :: rest =>
      name ← value_name use_units k v;
      vals ← get_values v;
      value_dict_loop use_units rest (dict_set ret name vals)
  end.

Definition _value_dict (use_units : bool) : M DataDict (dict (list scalar)) :=
  ok ← validate ;
  if ok : bool then
    self ← get ; lift (value_dict_loop use_units self [])
  else ret [].

(** ** The tabulator: [to_multiindex_dataframes] *)

(** Modelled from the spec: pandas is not part of the repository.  A
    [DataFrame] built as [pd.DataFrame({name: values}, mi)] with
    [mi = pd.MultiIndex.from_tuples(tuples, names=names)] is one column
    of values under a composite row index; pandas refuses a column whose
    length differs from the index. *)
Record DataFrame : Type := mkDataFrame {
  df_names : list string;
  df_index : list (list scalar);
  df_column : string;
  df_values : list scalar
}.

(** Modelled from the spec: the constructor of such a table. *)
Definition pd_DataFrame (column : string) (vals : list scalar)
    (names : list string) (tuples : list (list scalar)) : result DataFrame :=
  if decide (length vals = length tuples)
  then Ok (mkDataFrame names tuples column vals)
  else Raise (LibraryError "pandas: length of values does not match length of index").

(** Python's [list(zip( *cols ))]: the rows of the columns, as long as the
    shortest column. *)
Fixpoint zip_star {A} (cols : list (list A)) : list (list A) :=
  match cols with
  | [] => []
  | [c] => (λ x, [x]) <$> c
  | c :: cs => zip_with cons c (zip_star cs)
  end.

(** [_axname]: the name, with its unit when [use_units] asks for it. *)
Definition unit_name (self : DataDict) (use_units : bool) (name : string)
    : result string :=
  if use_units then
    v ← getitem self name; u ← get_unit v;
    Ok (if decide (u ≠ "") then with_unit name u else name)
  else Ok name.

(** The body of the loop for one field with axes; the inner loop collects
    the values and the name of every axis. *)
Definition multiindex_dataframe (self : DataDict) (use_units : bool)
    (n : string) (v : Field) : result DataFrame :=
  vals ← get_values v;
  axs ← get_axes v;
  ax ← rmapM (λ axname,
                a ← getitem self axname; axval ← get_values a;
                _axname ← unit_name self use_units axname;
                Ok (axval, _axname)) axs;
  let axvals := ax.*1 in
  let axnames := ax.*2 in
  _name ← unit_name self use_units n;
  pd_DataFrame _name vals axnames (zip_star axvals).

Fixpoint multiindex_loop (self : DataDict) (use_units : bool)
    (items : DataDict) (dfs : dict DataFrame) : result (dict DataFrame) :=
  match items with
  | [] => Ok dfs
  | (n, v) :: rest =>
      axs ← get_axes v;
      if decide (length axs = 0) then multiindex_loop self use_units rest dfs
      else
        df ← multiindex_dataframe self use_units n v;
        multiindex_loop self use_units rest (dict_set dfs n df)
  end.

Definition to_multiindex_dataframes (use_units : bool)
    : M DataDict (dict DataFrame) :=
  ok ← validate;
  if ok : bool then
    self ← get; lift (multiindex_loop self use_units self [])
  else ret [].

(** ** The labeled array: [xr.DataArray], [unstack], [squeeze], [drop] *)

(** Modelled from the spec: xarray and numpy are not part of the
    repository.  An index along one dimension is a plain index of
    coordinate values, the column index of a table (names), or a composite
    index of tuples with named levels. *)
Inductive Index : Type :=
  | PlainIndex (vals : list scalar)
  | ColumnIndex (cols : list string)
  | MultiIndex (names : list string) (tuples : list (list scalar)).

#[global] Instance Index_eq_dec : EqDecision Index.
Proof. solve_decision. Defined.

Definition index_size (i : Index) : nat :=
  match i with
  | PlainIndex vals => length vals
  | ColumnIndex cols => length cols
  | MultiIndex _ tuples => length tuples
  end.

(** [isinstance(idx, pd.MultiIndex)] *)
Definition is_MultiIndex (i : Index) : bool :=
  match i with MultiIndex _ _ => true | _ => false end.

(** Modelled from the spec: the element type of a numpy array.  pandas
    holds a column of integers as [int64], or as [uint64] when one is above
    the largest [int64] and none is negative; a column with a not-a-number
    is [float64], its integers rounded to the nearest float, and so is an
    empty column; a column with an integer that fits neither integer type
    is an array of Python objects. *)
Inductive dtype : Type := int64 | uint64 | float64 | object.

#[global] Instance dtype_eq_dec : EqDecision dtype.
Proof. solve_decision. Defined.

Definition INT64_MIN : Z := - 2 ^ 63.
Definition INT64_MAX : Z := 2 ^ 63 - 1.
Definition UINT64_MAX : Z := 2 ^ 64 - 1.

Definition num_of (x : scalar) : option Z :=
  match x with Num z => Some z | NaN => None end.

Definition infer_dtype (vals : list scalar) : dtype :=
  let ints := omap num_of vals in
  if bool_decide (vals = []) then float64
  else if bool_decide (Exists (λ z, z < INT64_MIN ∨ UINT64_MAX < z)%Z ints)
  then object
  else if bool_decide (Exists (λ z, z < 0)%Z ints
                       ∧ Exists (λ z, INT64_MAX < z)%Z ints)
  then object
  else if bool_decide (NaN ∈ vals) then float64
  else if bool_decide (Exists (λ z, INT64_MAX < z)%Z ints) then uint64
  else int64.

(** Modelled from the spec: the integer [z] as a [float64], rounded to 53
    significant bits, ties to even. *)
Definition to_float64 (z : Z) : Z :=
  let a := Z.abs z in
  if (a <? 2 ^ 53)%Z then z
  else
    let e := (Z.log2 a - 52)%Z in
    let q := (a / 2 ^ e)%Z in
    let r := (a mod 2 ^ e)%Z in
    let half := (2 ^ (e - 1))%Z in
    let q' := if (half <? r)%Z || ((r =? half)%Z && Z.odd q)
              then (q + 1)%Z else q in
    (Z.sgn z * (q' * 2 ^ e))%Z.

Definition cast_float (x : scalar) : scalar :=
  match x with Num z => Num (to_float64 z) | NaN => NaN end.

(** The values of a list as an array of the given element type. *)
Definition as_dtype (dt : dtype) (vals : list scalar) : list scalar :=
  match dt with float64 => cast_float <$> vals | _ => vals end.

(** [d.astype(to)] for an array of the element type [from]. *)
Definition astype (from to : dtype) (d : list scalar) : list scalar :=
  if decide (from = to) then d else as_dtype to d.

(** Modelled from the spec: a labeled array is its dimensions in order,
    each with its index, its values in row-major order, and their element
    type. *)
Record DataArray : Type := mkDataArray {
  dims : dict Index;
  data : list scalar;
  dtype_of : dtype
}.

(** A list of pairs read as a mapping: a later pair replaces an earlier
    one with the same key. *)
Definition to_dict {A} (l : dict A) : dict A :=
  foldl (λ d kv, dict_set d kv.1 kv.2) [] l.

(** [arr.indexes], a mapping from the names of the dimensions *)
Definition indexes (arr : DataArray) : dict Index := to_dict (dims arr).

(** [arr.values.shape] *)
Definition shape (arr : DataArray) : list nat := (index_size ∘ snd) <$> dims arr.

(** Modelled from the spec: [xr.DataArray(df)] is the two-dimensional
    array of the table, rows by columns; neither index of the table has a
    name, so xarray names the dimensions [dim_0] and [dim_1]. *)
Definition xr_DataArray (df : DataFrame) : DataArray :=
  {| dims := [("dim_0", MultiIndex (df_names df) (df_index df));
              ("dim_1", ColumnIndex [df_column df])];
     data := as_dtype (infer_dtype (df_values df)) (df_values df);
     dtype_of := infer_dtype (df_values df) |}.

(** Modelled from the spec: the realized coordinate set of one level of a
    composite index is the sorted list of its distinct values (pandas keeps
    missing values out of a level). *)
Definition level_values (col : list scalar) : list scalar :=
  Num <$> merge_sort Z.le (remove_dups (omap num_of col)).

(** The columns of a list of tuples of width [w]. *)
Definition columns {A} (w : nat) (tuples : list (list A)) : list (list A) :=
  (λ j, omap (λ t, t !! j) tuples) <$> seq 0 w.

(** The cartesian product of the levels, the last level varying fastest. *)
Fixpoint cartesian {A} (levels : list (list A)) : list (list A) :=
  match levels with
  | [] => [[]]
  | l :: ls => x ← l; (x ::.) <$> cartesian ls
  end.


(** The combination at which a row is written: a not-a-number coordinate
    has the code -1 in its level, which numpy reads as the last position;
    there is none in an empty level. *)
Fixpoint coded (levels : list (list scalar)) (t : list scalar)
    : option (list scalar) :=
  match levels, t with
  | level :: ls, x :: t' =>
      c ← match x with NaN => last level | Num _ => Some x end;
      cs ← coded ls t';
      Some (c :: cs)
  | _, _ => Some []
  end.

(** The position of the last element of [l] equal to [x]. *)
Fixpoint last_index {A} `{EqDecision A} (x : A) (l : list A) : option nat :=
  match l with
  | [] => None
  | y :: l' =>
      match last_index x l' with
      | Some j => Some (S j)
      | None => if decide (y = x) then Some 0 else None
      end
  end.

(** Modelled from the spec: the values of the array after the dimension at
    position [p] (of size [n], with [outer] cells before and [inner] cells
    after it) is replaced by the product of its levels: the other
    dimensions come first, the new ones last; [rows] gives, for every
    combination, the row written there, and a combination that no row is
    written at holds [fill]. *)
Definition unstack_data (outer n inner : nat) (d : list scalar) (fill : scalar)
    (rows : list (option nat)) : list scalar :=
  o ← seq 0 outer; r ← seq 0 inner;
  (λ row, match row with
          | Some i => default fill (d !! (o * n * inner + i * inner + r))
          | None => fill
          end) <$> rows.

Definition product (l : list nat) : nat := foldr Nat.mul 1 l.

(** Modelled from the spec: when the new array has more cells than the old
    one, numpy promotes an integer array to [float64] so that it can hold the
    gaps. *)
Definition promote (dt : dtype) : dtype :=
  match dt with int64 | uint64 => float64 | _ => dt end.

(** What an array holds where nothing is written: not-a-number, which an
    integer array stores as the integer the conversion yields. *)
Definition fill_value (dt : dtype) : scalar :=
  match dt with
  | int64 => Num INT64_MIN
  | uint64 => Num (2 ^ 63)
  | _ => NaN
  end.

(** Dimensions of the same name have the same size. *)
Definition sizes_agree (ds : dict Index) : Prop :=
  Forall (λ d, Forall (λ d', d.1 = d'.1 → index_size d.2 = index_size d'.2) ds) ds.

(** Modelled from the spec: [arr.unstack(dim)] promotes the levels of the
    composite index of [dim] to dimensions of their own, creates the new
    array filled with gaps and writes every row at the position of its
    coordinates, a later row over an earlier one.  The array is promoted
    when it has more cells than the old one.  xarray refuses a dimension
    that is no composite index, an index with a repeated tuple, and
    dimensions of the same name and different sizes; numpy refuses the
    position -1 in an empty level. *)
Definition unstack (arr : DataArray) (dim : string) : result DataArray :=
  match list_find (λ d, d.1 = dim) (dims arr) with
  | Some (p, (_, MultiIndex names tuples)) =>
      let before := take p (dims arr) in
      let after := drop (S p) (dims arr) in
      let levels := level_values <$> columns (length names) tuples in
      let written := coded levels <$> tuples in
      let outer := product ((index_size ∘ snd) <$> before) in
      let inner := product ((index_size ∘ snd) <$> after) in
      let n := length tuples in
      let cells := product (length <$> levels) in
      let grows := bool_decide (outer * n * inner < outer * inner * cells) in
      let dt := if grows then promote (dtype_of arr) else dtype_of arr in
      let new_dims := before ++ after ++ zip names (PlainIndex <$> levels) in
      if decide (NoDup tuples ∧ sizes_agree new_dims ∧ Forall is_Some written) then
        Ok {| dims := new_dims;
              data := unstack_data outer n inner
                        (astype (dtype_of arr) dt (data arr))
                        (if grows then NaN else fill_value (dtype_of arr))
                        ((λ t, last_index (Some t) written) <$> cartesian levels);
              dtype_of := dt |}
      else Raise (LibraryError "xarray: cannot unstack")
  | _ => Raise (LibraryError "xarray: not a MultiIndex dimension")
  end.

(** Modelled from the spec: [arr.squeeze(dim).drop(dim)] removes a
    dimension of size one together with its coordinate; xarray refuses to
    squeeze a longer or unknown dimension. *)
Definition squeeze_drop (arr : DataArray) (dim : string) : result DataArray :=
  match list_find (λ d, d.1 = dim) (dims arr) with
  | Some (p, (_, idx)) =>
      if decide (index_size idx = 1)
      then Ok {| dims := delete p (dims arr); data := data arr;
                 dtype_of := dtype_of arr |}
      else Raise (LibraryError "xarray: cannot squeeze a dimension of length greater than one")
  | None => Raise (LibraryError "xarray: unknown dimension")
  end.

(** ** [to_xarray] *)

(** One iteration of [for idxn in arr.indexes]. *)
Definition to_xarray_step (self : DataDict) (arr : DataArray) (idxn : string)
    : result DataArray :=
  idx ← getitem (indexes arr) idxn;
  if negb (contains self idxn) then
    if is_MultiIndex idx then unstack arr idxn else squeeze_drop arr idxn
  else Ok arr.

Fixpoint to_xarray_loop (self : DataDict) (arr : DataArray)
    (idxns : list string) : result DataArray :=
  match idxns with
  | [] => Ok arr
  | idxn :: rest =>
      arr' ← to_xarray_step self arr idxn; to_xarray_loop self arr' rest
  end.

Definition to_xarray (name : string) : M DataDict DataArray :=
  dfs ← to_multiindex_dataframes false;
  df ← lift (getitem dfs name);
  let arr := xr_DataArray df in
  self ← get;
  lift (to_xarray_loop self arr (keys (indexes arr))).

(** ** [get_grid] *)

(** What [get_grid] stores under ['values']: the values of an index, the
    plain array [arr.values], or the array [np.ma.masked_where] builds, with
    a mask bit per cell. *)
Inductive GridValues : Type :=
  | IndexValues (idx : Index)
  | ArrayValues (shp : list nat) (d : list scalar)
  | MaskedValues (shp : list nat) (d : list scalar) (mask : list bool).

(** [.shape] *)
Definition values_shape (v : GridValues) : list nat :=
  match v with
  | IndexValues idx => [index_size idx]
  | ArrayValues shp _ => shp
  | MaskedValues shp _ _ => shp
  end.


(** An entry of the mapping [ret]: [dict(values=.., unit=..)] for an axis
    and [dict(values=.., axes=.., unit=..)] for the gridded field. *)
Record Entry : Type := mkEntry {
  e_values : GridValues;
  e_axes : option (list string);
  e_unit : string
}.

(** One iteration of [for idxn in arr.indexes] in [get_grid]. *)
Definition grid_axis_step (self : DataDict) (arr : DataArray)
    (ret : dict Entry) (idxn : string) : result (dict Entry) :=
  idx ← getitem (indexes arr) idxn;
  let vals := IndexValues idx in
  conflict ← (if contains ret idxn then
                e ← getitem ret idxn;
                Ok (bool_decide (values_shape vals ≠ values_shape (e_values e)))
              else Ok false);
  if conflict : bool then Raise (ShapeConflictError idxn)
  else
    v ← getitem self idxn; u ← get_unit v;
    Ok (dict_set ret idxn {| e_values := vals; e_axes := None; e_unit := u |}).

Fixpoint grid_axis_loop (self : DataDict) (arr : DataArray)
    (ret : dict Entry) (idxns : list string) : result (dict Entry) :=
  match idxns with
  | [] => Ok ret
  | idxn :: rest =>
      ret' ← grid_axis_step self arr ret idxn;
      grid_axis_loop self arr ret' rest
  end.

(** The message of numpy when [np.isnan] is given an array of Python
    objects. *)
Definition isnan_msg : string :=
  "ufunc 'isnan' not supported for the input types, and the inputs could not be safely coerced to any supported types according to the casting rule ''safe''".

(** [np.ma.masked_where(np.isnan(arr.values), arr.values)] when asked for
    and when there is a not-a-number cell, [arr.values] otherwise.
    Modelled from the spec: [np.isnan] is evaluated only when [mask_nan] is
    set, and it raises [TypeError] on an array of Python objects. *)
Definition grid_values (mask_nan : bool) (arr : DataArray) : result GridValues :=
  if mask_nan then
    if decide (dtype_of arr = object)
    then Raise (TypeError isnan_msg)
    else
      Ok (if bool_decide (0 < length (filter (λ x, isnan x = true) (data arr)))
          then MaskedValues (shape arr) (data arr) (isnan <$> data arr)
          else ArrayValues (shape arr) (data arr))
  else Ok (ArrayValues (shape arr) (data arr)).

(** The body of [for n in name]: the mapping [ret] is created anew in
    every iteration. *)
Definition grid_of (n : string) (mask_nan : bool) : M DataDict (dict Entry) :=
  arr ← to_xarray n;
  self ← get;
  let ret0 : dict Entry := [] in
  ret1 ← lift (grid_axis_loop self arr ret0 (keys (indexes arr)));
  v ← lift (grid_values mask_nan arr);
  f ← lift (getitem self n);
  a ← lift (get_axes f);
  u ← lift (get_unit f);
  ret (dict_set ret1 n {| e_values := v; e_axes := Some a; e_unit := u |}).

(** The loop [for n in name]; its result is the local [ret] when the loop
    ends, [None] while it is unbound. *)
Fixpoint get_grid_loop (names : list string) (mask_nan : bool)
    (ret0 : option (dict Entry)) : M DataDict (option (dict Entry)) :=
  match names with
  | [] => ret ret0
  | n :: rest =>
      r ← grid_of n mask_nan; get_grid_loop rest mask_nan (Some r)
  end.

(** The argument [name]: [None], one name, or a list of names. *)
Inductive NameArg : Type :=
  | NoName
  | OneName (n : string)
  | Names (ns : list string).

(** [get_grid] ends in a bare [return]: what it returns is Python's
    [None], here [None : option (dict Entry)]. *)
Definition get_grid (name : NameArg) (mask_nan : bool)
    : M DataDict (option (dict Entry)) :=
  names ← match name with
          | NoName => dependents
          | OneName n => ret [n]
          | Names ns => ret ns
          end;
  _ ← get_grid_loop names mask_nan None;
  ret None.

(** ** [__add__] and [append] *)

(** A method of [self] run on the first, or the second, of two stores. *)
Definition on_self {S T A} (m : M S A) : M (S * T) A := λ st,
  let '(s', r) := m st.1 in ((s', st.2), r).
Definition on_newdata {S T A} (m : M T A) : M (S * T) A := λ st,
  let '(t', r) := m st.2 in ((st.1, t'), r).

(** [self[k]['values'] + newdata[k]['values']]; on numpy arrays
    [np.append] gives the same concatenation. *)
Definition joined_values (self newdata : DataDict) (k : string)
    : result (list scalar) :=
  v0 ← getitem self k; val0 ← get_values v0;
  v1 ← getitem newdata k; val1 ← get_values v1;
  Ok (val0 ++ val1).

Fixpoint add_loop (self newdata : DataDict) (ks : list string)
    (s : dict Field) : result (dict Field) :=
  match ks with
  | [] => Ok s
  | k :: rest =>
      vals ← joined_values self newdata k;
      sk ← getitem s k;
      add_loop self newdata rest
        (dict_set s k {| axes := axes sk; unit_ := unit_ sk; values := Some vals |})
  end.

(** The dict that [structure] returns: an inner dict without values for
    every field. *)
Definition structure_store (s : dict (list string * string)) : dict Field :=
  (λ '(n, (a, u)), (n, {| axes := Some a; unit_ := Some u; values := None |})) <$> s.

(** [self + newdata]; the two stores are distinct objects.  What is
    returned is the plain dict that [structure] has built, which has none of
    the methods of the class; it is given by its contents. *)
Definition add : M (DataDict * DataDict) (dict Field) :=
  s ← on_self structure;
  s' ← on_newdata structure;
  if dict_eqb s s' then
    st ← get;
    lift (add_loop st.1 st.2 (keys st.1) (structure_store s))
  else raise CompatibilityError.

Fixpoint append_loop (self : DataDict) (items : DataDict) : DataDict * result () :=
  match items with
  | [] => (self, Ok ())
  | (k, v) :: rest =>
      match sk ← getitem self k; val0 ← get_values sk; val1 ← get_values v;
            Ok (dict_set self k {| axes := axes sk; unit_ := unit_ sk;
                                   values := Some (val0 ++ val1) |}) with
      | Ok self' => append_loop self' rest
      | Raise e => (self, Raise e)
      end
  end.

(** The loop of [append], which assigns to the fields of [self]. *)
Definition append_values : M (DataDict * DataDict) () := λ st,
  let '(self', r) := append_loop st.1 st.2 in ((self', st.2), r).

(** [self.append(newdata)]; there is no [else] branch, and the method
    returns Python's [None], here [tt]. *)
Definition append : M (DataDict * DataDict) () :=
  s ← on_self structure;
  s' ← on_newdata structure;
  if dict_eqb s s' then append_values else ret ().

(** ** Examples *)

(** The store of the design's example. *)
Definition example_store : DataDict :=
  [ ("amplitude", {| axes := Some ["freq"; "power"]; unit_ := Some "V";
                     values := Some [Num 1; Num 2; Num 3; Num 4] |});
    ("freq", {| axes := Some []; unit_ := Some "Hz";
                values := Some [Num 1; Num 1; Num 2; Num 2] |});
    ("power", {| axes := Some []; unit_ := Some "dBm";
                 values := Some [Num 0; Num 1; Num 0; Num 1] |}) ].

(** ** Vocabulary of the properties *)

(** The concatenation of a list of lines. *)
Definition cat (lines : list string) : string := foldr String.append "" lines.

(** [a] occurs in [m]. *)
Definition substring (a m : string) : Prop := ∃ pre post, m = pre +:+ a +:+ post.

(** The store after validation: every field with its defaults filled. *)
Definition filled (s : DataDict) : DataDict :=
  (λ nv, (nv.1, fill_defaults nv.2)) <$> s.

(** The length that the validator reads off a field. *)
Definition field_length (v : Field) : nat := length (default [] (values v)).

(** The lines that one field adds to the message, when the reference
    length and name are [ref]. *)
Definition axis_lines (ks : list string) (n : string) (axs : list string)
    : list string :=
  axis_msg n <$> filter (λ na, na ∉ ks) axs.

Definition length_lines (ref : option (nat * string)) (n : string) (v : Field)
    : list string :=
  match ref with
  | Some (nv, src) =>
      if decide (field_length v ≠ nv)
      then [length_msg n (field_length v) nv src] else []
  | None => []
  end.

Definition next_ref (ref : option (nat * string)) (n : string) (v : Field)
    : option (nat * string) :=
  match ref with None => Some (field_length v, n) | Some r => Some r end.

Fixpoint loop_lines (ks : list string) (ref : option (nat * string))
    (items : DataDict) : list string :=
  match items with
  | [] => []
  | (n, v) :: rest =>
      axis_lines ks n (default [] (axes v)) ++ length_lines ref n v
        ++ loop_lines ks (next_ref ref n v) rest
  end.

Definition violation_lines (s : DataDict) : list string :=
  loop_lines (keys s) None s.

(** A field [n] names an axis [na] that is no field of the store. *)
Definition unknown_axis (s : DataDict) (n na : string) : Prop :=
  ∃ v axs, (n, v) ∈ s ∧ axes v = Some axs ∧ na ∈ axs ∧ na ∉ keys s.

(** The reference length and name: those of the first field. *)
Definition reference (s : DataDict) : option (nat * string) :=
  match s with
  | [] => None
  | (n0, v0) :: _ => Some (field_length v0, n0)
  end.

(** The field [n] has [len] values, the reference field [src] has [nv]. *)
Definition length_mismatch (s : DataDict) (n : string) (len nv : nat)
    (src : string) : Prop :=
  ∃ v, (n, v) ∈ s ∧ field_length v = len ∧ reference s = Some (nv, src) ∧ len ≠ nv.

(** The reference in force while the loop is at [items]. *)
Definition ref_of (ref : option (nat * string)) (items : DataDict)
    : option (nat * string) :=
  match ref with Some r => Some r | None => reference items end.

(** The keys ['axes'], ['unit'] and ['values'] are all present. *)
Definition all_keys (v : Field) : Prop :=
  is_Some (axes v) ∧ is_Some (unit_ v) ∧ is_Some (values v).

(** The values of the field [a], as the tabulator reads them after
    validation. *)
Definition col_of (s : DataDict) (a : string) : list scalar :=
  default [] (dict_get s a ≫= values).

(** The rows of the table of a field with the axes [axs]. *)
Definition rows_of (s : DataDict) (axs : list string) : list (list scalar) :=
  zip_star (col_of s <$> axs).

(** The table that the tabulator builds for the field [n]. *)
Definition frame_of (s : DataDict) (n : string) (v : Field) : DataFrame :=
  {| df_names := default [] (axes v);
     df_index := rows_of s (default [] (axes v));
     df_column := n;
     df_values := default [] (values v) |}.

(** A store in which the field [x] is gridded over [y] and is itself an
    axis of [a]: as the data of its own grid [x] has four cells, as an axis
    of [a] it has two coordinates. *)
Definition conflict_store : DataDict :=
  [ ("y", {| axes := Some []; unit_ := Some "s";
             values := Some [Num 0; Num 1; Num 2; Num 3] |});
    ("x", {| axes := Some ["y"]; unit_ := Some "m";
             values := Some [Num 1; Num 1; Num 2; Num 2] |});
    ("a", {| axes := Some ["x"; "y"]; unit_ := Some "V";
             values := Some [Num 5; Num 6; Num 7; Num 8] |}) ].

(** A store whose structure differs from that of [example_store]. *)
Definition other_store : DataDict :=
  [ ("amplitude", {| axes := Some ["freq"]; unit_ := Some "V";
                     values := Some [Num 1] |});
    ("freq", {| axes := Some []; unit_ := Some "Hz"; values := Some [Num 1] |}) ].












(** An exception other than the shape conflict of [get_grid]. *)
Definition no_conflict (e : exn) : Prop := ∀ idxn, e ≠ ShapeConflictError idxn.

(** ** Vocabulary of the further properties *)

(** The structure of a store that validates: axes and unit of every
    field, with the defaults, and no values. *)
Definition structure_of (s : DataDict) : dict (list string * string) :=
  (λ nv, (nv.1, (default [] (axes nv.2), default "" (unit_ nv.2)))) <$> s.

(** The store [s1] in which every field has got, after its own values,
    the values of the field of the same name of [s2]. *)
Definition joined (s1 s2 : DataDict) : DataDict :=
  (λ nv, (nv.1, {| axes := Some (default [] (axes nv.2));
                   unit_ := Some (default "" (unit_ nv.2));
                   values := Some (default [] (values nv.2) ++ col_of s2 nv.1) |}))
    <$> s1.

(** The store [s1] in which the fields named in [P] have got the values
    of [s2]. *)
Definition appended (P : list string) (s1 s2 : DataDict) : DataDict :=
  (λ nv, (nv.1, if bool_decide (nv.1 ∈ P)
                then {| axes := Some (default [] (axes nv.2));
                        unit_ := Some (default "" (unit_ nv.2));
                        values := Some (default [] (values nv.2) ++ col_of s2 nv.1) |}
                else fill_defaults nv.2)) <$> s1.

(** The name under which a field is shown: with its unit when asked for
    and when there is one. *)
Definition shown_name (use_units : bool) (k : string) (v : Field) : string :=
  if use_units && bool_decide (default "" (unit_ v) ≠ "")
  then with_unit k (default "" (unit_ v)) else k.

(** The name under which the tabulator shows the field [name]. *)
Definition label_of (s : DataDict) (use_units : bool) (name : string) : string :=
  match dict_get s name with
  | Some v => shown_name use_units name v
  | None => name
  end.

(** The table of the field [n], with the names that [use_units] asks for. *)
Definition table_of (s : DataDict) (use_units : bool) (n : string) (v : Field)
    : DataFrame :=
  {| df_names := label_of s use_units <$> default [] (axes v);
     df_index := rows_of s (default [] (axes v));
     df_column := label_of s use_units n;
     df_values := default [] (values v) |}.




(** A store that does not validate: the axis [b] is no field. *)
Definition bad_store : DataDict :=
  [ ("a", {| axes := Some ["b"]; unit_ := None; values := None |}) ].

(** * Properties *)

(** ** Strings *)

Lemma string_app_cons (x : Ascii.ascii) (a b : string) :
  String x a +:+ b = String x (a +:+ b).
Proof. reflexivity. Qed.

Lemma string_app_assoc (a b c : string) : (a +:+ b) +:+ c = a +:+ (b +:+ c).
Proof.
  induction a as [|x a IH]; [done |].
  by rewrite !string_app_cons, IH.
Qed.

Lemma string_app_nil_r (a : string) : a +:+ "" = a.
Proof.
  induction a as [|x a IH]; [done |]. by rewrite string_app_cons, IH.
Qed.

Lemma cat_app (l1 l2 : list string) : cat (l1 ++ l2) = cat l1 +:+ cat l2.
Proof.
  induction l1 as [|x l1 IH]; [done |].
  change (x +:+ cat (l1 ++ l2) = (x +:+ cat l1) +:+ cat l2).
  by rewrite IH, string_app_assoc.
Qed.

Lemma substring_cat (line : string) (lines : list string) (pre : string) :
  line ∈ lines → substring line (pre +:+ cat lines).
Proof.
  intros (l1 & l2 & ->)%list_elem_of_split.
  exists (pre +:+ cat l1), (cat l2).
  rewrite cat_app. change (cat (line :: l2)) with (line +:+ cat l2).
  by rewrite !string_app_assoc.
Qed.

Lemma cat_nonempty (lines : list string) :
  lines ≠ [] → Forall (λ l, l ≠ "") lines → cat lines ≠ "".
Proof.
  destruct lines as [|l lines]; [done |].
  intros _ Hne. apply Forall_cons in Hne as [Hl _].
  simpl. destruct l; [done | discriminate].
Qed.

(** ** The validator *)

Lemma check_axes_lines ks n axs m :
  check_axes ks n axs m = m +:+ cat (axis_lines ks n axs).
Proof.
  unfold check_axes, axis_lines. revert m.
  induction axs as [|na axs IH]; intros m; simpl.
  - by rewrite string_app_nil_r.
  - rewrite IH, filter_cons. case_bool_decide; case_decide; try done.
    simpl. by rewrite string_app_assoc.
Qed.

Lemma validate_item_spec ks st n v :
  validate_item ks st n v =
    ({| nvals := next_ref (nvals st) n v;
        msg := msg st +:+ cat (axis_lines ks n (default [] (axes v))
                               ++ length_lines (nvals st) n v) |},
     fill_defaults v).
Proof.
  unfold validate_item, length_lines, next_ref, field_length. simpl.
  assert (match axes v with
          | Some axs => check_axes ks n axs (msg st)
          | None => msg st
          end = msg st +:+ cat (axis_lines ks n (default [] (axes v)))) as ->.
  { destruct (axes v); simpl; [apply check_axes_lines |].
    by rewrite string_app_nil_r. }
  destruct (nvals st) as [[nv src]|]; simpl.
  - case_decide; rewrite cat_app; simpl.
    + by rewrite string_app_nil_r, string_app_assoc.
    + by rewrite string_app_nil_r.
  - by rewrite app_nil_r.
Qed.

Lemma validate_loop_spec ks st s :
  (validate_loop ks st s).2 = filled s ∧
  msg (validate_loop ks st s).1 = msg st +:+ cat (loop_lines ks (nvals st) s).
Proof.
  revert st. induction s as [|[n v] s IH]; intros st; simpl.
  - by rewrite string_app_nil_r.
  - rewrite validate_item_spec.
    specialize (IH {| nvals := next_ref (nvals st) n v;
                      msg := msg st +:+ cat (axis_lines ks n (default [] (axes v))
                                             ++ length_lines (nvals st) n v) |}).
    destruct (validate_loop ks _ s) as [st2 rest'] eqn:E. simpl in *.
    destruct IH as [-> ->]. split; [done |].
    by rewrite !cat_app, !string_app_assoc.
Qed.

Lemma axis_msg_nonempty n na : axis_msg n na ≠ "".
Proof. done. Qed.

Lemma length_msg_nonempty n len nv src : length_msg n len nv src ≠ "".
Proof. done. Qed.

Lemma loop_lines_nonempty ks ref s : Forall (λ l, l ≠ "") (loop_lines ks ref s).
Proof.
  revert ref. induction s as [|[n v] s IH]; intros ref; simpl; [constructor |].
  rewrite !Forall_app. split_and!; [| | apply IH].
  - unfold axis_lines. apply Forall_fmap, Forall_forall. intros ??. apply axis_msg_nonempty.
  - unfold length_lines. destruct ref as [[??]|]; [|constructor].
    case_decide; repeat constructor. apply length_msg_nonempty.
Qed.

(** What [validate] does, in one equation: the store is filled, and the
    call raises exactly when there is a line to report. *)
Lemma validate_spec (s : DataDict) :
  validate s =
    (filled s,
     if decide (violation_lines s = []) then Ok true
     else Raise (ValueError (nl +:+ cat (violation_lines s)))).
Proof.
  unfold validate, violation_lines.
  pose proof (validate_loop_spec (keys s) {| nvals := None; msg := nl |} s) as [H1 H2].
  destruct (validate_loop _ _ s) as [st s'] eqn:E. simpl in *. subst s'.
  rewrite H2. case_decide as Hm; case_decide as Hl; try done.
  - rewrite Hl in Hm. by destruct Hm.
  - exfalso. apply (cat_nonempty _ Hl (loop_lines_nonempty _ _ _)).
    apply (inj (String.append nl)). by rewrite string_app_nil_r.
Qed.

Lemma elem_of_axis_lines ks n axs line :
  line ∈ axis_lines ks n axs ↔ ∃ na, na ∈ axs ∧ na ∉ ks ∧ line = axis_msg n na.
Proof.
  unfold axis_lines. rewrite list_elem_of_fmap.
  setoid_rewrite list_elem_of_filter. naive_solver.
Qed.

Lemma elem_of_length_lines ref n v line :
  line ∈ length_lines ref n v ↔
  ∃ nv src, ref = Some (nv, src) ∧ field_length v ≠ nv ∧
            line = length_msg n (field_length v) nv src.
Proof.
  unfold length_lines. destruct ref as [[nv src]|].
  - case_decide; rewrite ?list_elem_of_singleton, ?elem_of_nil; naive_solver.
  - rewrite elem_of_nil. naive_solver.
Qed.

Lemma elem_of_loop_lines ks ref items line :
  line ∈ loop_lines ks ref items ↔
    (∃ n v axs na, (n, v) ∈ items ∧ axes v = Some axs ∧ na ∈ axs ∧ na ∉ ks ∧
                   line = axis_msg n na) ∨
    (∃ n v nv src, (n, v) ∈ items ∧ ref_of ref items = Some (nv, src) ∧
                   field_length v ≠ nv ∧
                   line = length_msg n (field_length v) nv src).
Proof.
  revert ref. induction items as [|[n v] items IH]; intros ref.
  - simpl. rewrite elem_of_nil. split; [done |].
    intros [(?&?&?&?&[]%elem_of_nil&_)|(?&?&?&?&[]%elem_of_nil&_)].
  - cbn [loop_lines]. rewrite !elem_of_app, IH, elem_of_axis_lines, elem_of_length_lines.
    assert (ref_of (next_ref ref n v) items = ref_of ref ((n, v) :: items)) as ->.
    { by destruct ref. }
    split.
    + intros [(na & Hna & Hks & ->)|[(nv & src & -> & Hlen & ->)|[H|H]]].
      * destruct (axes v) as [axs|] eqn:Hax; [|by apply elem_of_nil in Hna].
        left. exists n, v, axs, na. split_and!; try done. by left.
      * right. exists n, v, nv, src. split_and!; try done. by left.
      * destruct H as (n' & v' & axs & na & Hin & ?). left.
        exists n', v', axs, na. split; [by right | done].
      * destruct H as (n' & v' & nv & src & Hin & ?). right.
        exists n', v', nv, src. split; [by right | done].
    + intros [(n' & v' & axs & na & Hin & Hax & Hna & Hks & ->)
             |(n' & v' & nv & src & Hin & Href & Hlen & ->)].
      * apply elem_of_cons in Hin as [[= -> ->]|Hin].
        -- left. exists na. rewrite Hax. done.
        -- right; right; left. by exists n', v', axs, na.
      * apply elem_of_cons in Hin as [[= -> ->]|Hin].
        -- right; left. exists nv, src. split_and!; try done.
           destruct ref as [r|]; [done |]. simpl in Href. by simplify_eq.
        -- right; right; right. by exists n', v', nv, src.
Qed.

Lemma elem_of_violation_lines s line :
  line ∈ violation_lines s ↔
    (∃ n na, unknown_axis s n na ∧ line = axis_msg n na) ∨
    (∃ n len nv src, length_mismatch s n len nv src ∧ line = length_msg n len nv src).
Proof.
  unfold violation_lines. rewrite elem_of_loop_lines.
  unfold unknown_axis, length_mismatch. simpl. naive_solver.
Qed.

Lemma violation_lines_nil s :
  violation_lines s = [] ↔
    ¬ ((∃ n na, unknown_axis s n na) ∨
       (∃ n len nv src, length_mismatch s n len nv src)).
Proof.
  split.
  - intros Hnil [(n & na & H)|(n & len & nv & src & H)].
    + assert (axis_msg n na ∈ violation_lines s) as Hin
        by (apply elem_of_violation_lines; left; eauto).
      rewrite Hnil in Hin. by apply elem_of_nil in Hin.
    + assert (length_msg n len nv src ∈ violation_lines s) as Hin
        by (apply elem_of_violation_lines; right; eauto 10).
      rewrite Hnil in Hin. by apply elem_of_nil in Hin.
  - intros Hno. destruct (violation_lines s) as [|line lines] eqn:E; [done |].
    exfalso. apply Hno.
    assert (line ∈ violation_lines s) as Hin by (rewrite E; left).
    apply elem_of_violation_lines in Hin. naive_solver.
Qed.

(** C4: [validate] raises the structural error exactly when some field
    names an axis that is no field of the store, or some field's number of
    values differs from that of the reference (first) field; the message
    then contains the line of every such violation; and on a store without
    violation [validate] returns [True]. *)
Theorem validate_reports_every_violation (s : DataDict) :
  ((∃ m, (validate s).2 = Raise (StructuralError m)) ↔
     (∃ n na, unknown_axis s n na) ∨
     (∃ n len nv src, length_mismatch s n len nv src))
  ∧ (∀ m, (validate s).2 = Raise (StructuralError m) →
       (∀ n na, unknown_axis s n na → substring (axis_msg n na) m) ∧
       (∀ n len nv src, length_mismatch s n len nv src →
          substring (length_msg n len nv src) m))
  ∧ (¬ ((∃ n na, unknown_axis s n na) ∨
        (∃ n len nv src, length_mismatch s n len nv src)) →
     (validate s).2 = Ok true).
Proof.
  rewrite validate_spec. cbn [snd]. split_and!.
  - case_decide as Hl.
    + split; [by intros [m ?] |]. intros Hv.
      by apply violation_lines_nil in Hl.
    + split; [|by eauto]. intros _.
      destruct (violation_lines s) as [|line lines] eqn:E; [done |].
      assert (line ∈ violation_lines s) as Hin by (rewrite E; left).
      apply elem_of_violation_lines in Hin. naive_solver.
  - intros m Hm. case_decide as Hl; [done |]. injection Hm as <-.
    split.
    + intros n na H. apply substring_cat, elem_of_violation_lines. left; eauto.
    + intros n len nv src H. apply substring_cat, elem_of_violation_lines.
      right; eauto 10.
  - intros Hno%violation_lines_nil. by rewrite decide_True.
Qed.

Lemma filled_idemp s : filled (filled s) = filled s.
Proof.
  unfold filled. rewrite <-list_fmap_compose. by apply list_fmap_ext.
Qed.

Lemma keys_filled s : keys (filled s) = keys s.
Proof.
  unfold keys, filled. rewrite <-list_fmap_compose. by apply list_fmap_ext.
Qed.

Lemma loop_lines_filled ks ref items :
  loop_lines ks ref (filled items) = loop_lines ks ref items.
Proof.
  revert ref. induction items as [|[n v] items IH]; intros ref; [done |].
  change (filled ((n, v) :: items)) with ((n, fill_defaults v) :: filled items).
  cbn [loop_lines]. rewrite IH.
  destruct v as [[a|] u [x|]]; reflexivity.
Qed.

Lemma violation_lines_filled s : violation_lines (filled s) = violation_lines s.
Proof. unfold violation_lines. by rewrite keys_filled, loop_lines_filled. Qed.

(** C7: on a store on which [validate] has succeeded, a second call
    changes nothing in the store and succeeds again. *)
Theorem validate_idempotent (s s' : DataDict) :
  validate s = (s', Ok true) → validate s' = (s', Ok true).
Proof.
  rewrite !validate_spec. intros [= <- H].
  rewrite filled_idemp, violation_lines_filled.
  by destruct (decide (violation_lines s = [])).
Qed.

Lemma validate_idempotent_witness :
  validate (validate example_store).1 = ((validate example_store).1, Ok true).
Proof. apply (validate_idempotent example_store). reflexivity. Defined.

(** C10: after any call to [validate], whether it returns or raises, the
    store is the store before with the absent keys of every field filled
    with [[]], [''] and [[]], so that every field has its three keys; and
    there is a store on which [validate] raises and that it has changed. *)
Theorem validate_fills_even_when_it_raises :
  (∀ s : DataDict,
     (validate s).1 = filled s ∧ Forall (λ nv, all_keys nv.2) (validate s).1)
  ∧ (∃ (s : DataDict) (m : string),
       (validate s).2 = Raise (StructuralError m) ∧ (validate s).1 ≠ s).
Proof.
  split.
  - intros s. rewrite validate_spec. split; [done |].
    cbn [fst]. unfold filled. apply Forall_fmap, Forall_forall.
    intros [n v] _. unfold all_keys. cbn. eauto.
  - exists [("a", {| axes := Some ["b"]; unit_ := None; values := None |})].
    eexists. split; [reflexivity | done].
Qed.

(** ** The structural queries *)

Lemma validate_ok_state (s : DataDict) :
  (validate s).2 = Ok true → validate s = (filled s, Ok true).
Proof.
  rewrite validate_spec. cbn [snd]. by case_decide.
Qed.

Lemma dict_get_filled s k : dict_get (filled s) k = fill_defaults <$> dict_get s k.
Proof.
  induction s as [|[n v] s IH]; [done |].
  change (filled ((n, v) :: s)) with ((n, fill_defaults v) :: filled s).
  cbn [dict_get]. by case_decide.
Qed.

Lemma dict_get_None {A} (d : dict A) k : dict_get d k = None ↔ k ∉ keys d.
Proof.
  induction d as [|[n v] d IH]; cbn [dict_get keys fmap list_fmap fst].
  - split; [intros _; apply not_elem_of_nil | done].
  - rewrite not_elem_of_cons. case_decide; naive_solver.
Qed.

Lemma dict_get_Some_keys {A} (d : dict A) k v : dict_get d k = Some v → k ∈ keys d.
Proof.
  intros H. destruct (decide (k ∈ keys d)) as [|Hn]; [done |].
  apply dict_get_None in Hn. congruence.
Qed.

(** C6: on a store that validates, [label name] raises the lookup error
    when [name] is no field of the store, and for a field of the store it
    returns [name] when the unit is [''] and ["name (unit)"] otherwise. *)
Theorem label_spec (s : DataDict) (name : string) :
  (validate s).2 = Ok true →
  (name ∉ keys s → (label name s).2 = Raise (LookupError name)) ∧
  (∀ v, dict_get s name = Some v →
     (label name s).2 =
       Ok (if decide (default "" (unit_ v) = "") then name
           else name +:+ " (" +:+ default "" (unit_ v) +:+ ")")).
Proof.
  intros Hv%validate_ok_state.
  unfold label, mbind, M_bind, bind, contains. rewrite Hv. cbn [get lift snd].
  rewrite keys_filled. split.
  - intros Hn. by rewrite bool_decide_false.
  - intros v Hg. rewrite bool_decide_true by eauto using dict_get_Some_keys.
    cbn [negb]. unfold getitem. rewrite dict_get_filled, Hg. cbn.
    destruct (decide (default "" (unit_ v) = "")) as [Hu|Hu].
    + by rewrite decide_False by (by intros []).
    + by rewrite decide_True.
Qed.

Lemma label_spec_witness :
  ("nofield" ∉ keys example_store →
     (label "nofield" example_store).2 = Raise (LookupError "nofield")) ∧
  (∀ v, dict_get example_store "amplitude" = Some v →
     (label "amplitude" example_store).2 =
       Ok (if decide (default "" (unit_ v) = "") then "amplitude"
           else "amplitude" +:+ " (" +:+ default "" (unit_ v) +:+ ")")).
Proof.
  split.
  - apply (label_spec example_store "nofield"). reflexivity.
  - apply (label_spec example_store "amplitude"). reflexivity.
Defined.

(** C8: on a store that validates, [dependents] returns the names of the
    fields whose axes are not empty, in the order of the store. *)
Theorem dependents_spec (s : DataDict) :
  (validate s).2 = Ok true →
  (dependents s).2 = Ok (filter (λ nv, default [] (axes nv.2) ≠ []) s).*1.
Proof.
  intros Hv%validate_ok_state.
  unfold dependents, mbind, M_bind, bind. rewrite Hv. cbn [get ret snd].
  f_equal. clear Hv. induction s as [|[n v] s IH]; [done |].
  change (filled ((n, v) :: s)) with ((n, fill_defaults v) :: filled s).
  rewrite !filter_cons. cbn [snd]. unfold has_axes at 1.
  destruct v as [[[|a axs]|] u x]; cbn.
  - rewrite decide_False by (by intros ?%bool_decide_unpack).
    by rewrite decide_False by (by intros []).
  - rewrite decide_True by (by apply bool_decide_pack).
    rewrite decide_True by done. cbn. by rewrite IH.
  - rewrite decide_False by (by intros ?%bool_decide_unpack).
    by rewrite decide_False by (by intros []).
Qed.

Lemma dependents_spec_witness :
  (dependents example_store).2 = Ok ["amplitude"].
Proof. apply (dependents_spec example_store). reflexivity. Defined.

(** ** Stores that validate *)

Lemma validate_ok_lines (s : DataDict) :
  (validate s).2 = Ok true → violation_lines s = [].
Proof. rewrite validate_spec. cbn [snd]. by case_decide. Qed.

Lemma validate_ok_axes (s : DataDict) n v na :
  (validate s).2 = Ok true → (n, v) ∈ s → na ∈ default [] (axes v) → na ∈ keys s.
Proof.
  intros Hl%validate_ok_lines%violation_lines_nil Hin Hna.
  destruct (decide (na ∈ keys s)) as [|Hn]; [done |]. exfalso. apply Hl. left.
  exists n, na, v. destruct (axes v) as [axs|]; [|by apply elem_of_nil in Hna].
  by exists axs.
Qed.

Lemma validate_ok_length (s : DataDict) n v n' v' :
  (validate s).2 = Ok true → (n, v) ∈ s → (n', v') ∈ s →
  field_length v = field_length v'.
Proof.
  intros Hl%validate_ok_lines%violation_lines_nil Hin Hin'.
  destruct s as [|[n0 v0] s]; [by apply elem_of_nil in Hin |].
  assert (∀ n v, (n, v) ∈ (n0, v0) :: s → field_length v = field_length v0) as H.
  { intros m w Hw. destruct (decide (field_length w = field_length v0)); [done |].
    exfalso. apply Hl. right.
    exists m, (field_length w), (field_length v0), n0, w. done. }
  by rewrite (H n v), (H n' v').
Qed.

Lemma dict_get_elem_of {A} (d : dict A) k v : dict_get d k = Some v → (k, v) ∈ d.
Proof.
  induction d as [|[k' v'] d IH]; [done |]. cbn [dict_get].
  case_decide; [intros [= ->]; subst; left | right; auto].
Qed.

Lemma dict_get_set {A} (d : dict A) k k' (v : A) :
  dict_get (dict_set d k v) k' = if decide (k = k') then Some v else dict_get d k'.
Proof.
  induction d as [|[k0 v0] d IH]; cbn [dict_set dict_get].
  - done.
  - destruct (decide (k0 = k)) as [->|Hne]; cbn [dict_get].
    + by case_decide.
    + rewrite IH. repeat case_decide; congruence.
Qed.

Lemma keys_dict_set {A} (d : dict A) k (v : A) :
  keys (dict_set d k v) = if decide (k ∈ keys d) then keys d else keys d ++ [k].
Proof.
  unfold keys. induction d as [|[k0 v0] d IH]; cbn [dict_set].
  - rewrite decide_False; [done | apply not_elem_of_nil].
  - destruct (decide (k0 = k)) as [->|Hne]; rewrite !fmap_cons; cbn [fst].
    + rewrite decide_True; [done | left].
    + rewrite IH. destruct (decide (k ∈ d.*1)).
      * rewrite decide_True; [done | by right].
      * rewrite decide_False; [done |]. rewrite not_elem_of_cons. done.
Qed.

Lemma dict_set_fresh {A} (d : dict A) k (v : A) :
  k ∉ keys d → dict_set d k v = d ++ [(k, v)].
Proof.
  induction d as [|[k' v'] d IH]; [done |]. unfold keys. rewrite fmap_cons.
  intros [Hne Hk]%not_elem_of_cons. cbn [dict_set app].
  rewrite decide_False by done. f_equal. by apply IH.
Qed.

Lemma foldl_dict_set_fresh {A B} (f : A → string) (g : A → B) (l : list A)
    (ret : dict B) :
  NoDup (keys ret ++ (f <$> l)) →
  foldl (λ r x, dict_set r (f x) (g x)) ret l = ret ++ ((λ x, (f x, g x)) <$> l).
Proof.
  revert ret. induction l as [|x l IH]; intros ret Hnd; cbn.
  { by rewrite app_nil_r. }
  rewrite fmap_cons in Hnd. apply NoDup_app in Hnd as Hnd'.
  destruct Hnd' as (_ & Hdis & _).
  rewrite dict_set_fresh; cycle 1.
  { intros Hin. apply (Hdis _ Hin). left. }
  rewrite IH; [by rewrite <-app_assoc |].
  unfold keys. rewrite fmap_app. cbn. by rewrite <-app_assoc.
Qed.

Lemma foldl_dict_set_get {A B} (f : A → string) (g : A → B) (l : list A)
    (ret : dict B) (k : string) (b : B) :
  dict_get (foldl (λ r x, dict_set r (f x) (g x)) ret l) k = Some b →
  dict_get ret k = Some b ∨ ∃ x, x ∈ l ∧ f x = k ∧ g x = b.
Proof.
  revert ret. induction l as [|x l IH]; intros ret; cbn [foldl]; [by left |].
  intros [H|(y & Hy & ? & ?)]%IH.
  - rewrite dict_get_set in H. case_decide; [|by left].
    injection H as <-. right. exists x. split; [left | done].
  - right. exists y. split; [by right | done].
Qed.

Lemma foldl_dict_set_keys {A B} (f : A → string) (g : A → B) (l : list A)
    (ret : dict B) (k : string) :
  k ∈ keys (foldl (λ r x, dict_set r (f x) (g x)) ret l) ↔
  k ∈ keys ret ∨ ∃ x, x ∈ l ∧ f x = k.
Proof.
  revert ret. induction l as [|x l IH]; intros ret; cbn [foldl].
  { split; [by left |]. by intros [|(x & ?%elem_of_nil & _)]. }
  rewrite IH, keys_dict_set. setoid_rewrite elem_of_cons. split.
  - intros [H|(y & Hy & <-)]; [|by eauto].
    case_decide; [by left |]. apply elem_of_app in H as [? | ->%list_elem_of_singleton];
      [by left | by eauto].
  - intros [H|(y & [->|Hy] & <-)]; [| |by eauto].
    + left. case_decide; [done |]. apply elem_of_app. by left.
    + left. case_decide; [done |]. apply elem_of_app. right. left.
Qed.

Lemma NoDup_keys_dict_set {A} (d : dict A) k (v : A) :
  NoDup (keys d) → NoDup (keys (dict_set d k v)).
Proof.
  intros Hnd. rewrite keys_dict_set. case_decide; [done |].
  apply NoDup_app. split_and!; [done | | apply NoDup_singleton].
  by intros x Hx ->%list_elem_of_singleton.
Qed.

Lemma NoDup_keys_foldl_dict_set {A B} (f : A → string) (g : A → B) (l : list A)
    (ret : dict B) :
  NoDup (keys ret) → NoDup (keys (foldl (λ r x, dict_set r (f x) (g x)) ret l)).
Proof.
  revert ret. induction l as [|x l IH]; intros ret Hnd; [done |].
  cbn [foldl]. by apply IH, NoDup_keys_dict_set.
Qed.

(** ** Lists of pairs read as mappings *)

Lemma NoDup_keys_to_dict {A} (l : dict A) : NoDup (keys (to_dict l)).
Proof. apply (NoDup_keys_foldl_dict_set fst snd). constructor. Qed.

Lemma elem_of_keys_to_dict {A} (l : dict A) k : k ∈ keys (to_dict l) ↔ k ∈ keys l.
Proof.
  unfold to_dict. rewrite (foldl_dict_set_keys fst snd). split.
  - intros [[]%elem_of_nil|(x & Hx & <-)]. by apply (list_elem_of_fmap_2 fst).
  - intros (x & -> & Hx)%list_elem_of_fmap. right. by exists x.
Qed.


(** ** The tabulator *)

Lemma rmapM_ok {A B} (f : A → result B) (g : A → B) (l : list A) :
  Forall (λ x, f x = Ok (g x)) l → rmapM f l = Ok (g <$> l).
Proof.
  induction 1 as [|x l Hx _ IH]; [done |].
  cbn [rmapM]. rewrite Hx. cbn. rewrite IH. done.
Qed.

Lemma length_zip_star {A} (cols : list (list A)) (L : nat) :
  cols ≠ [] → Forall (λ c, length c = L) cols → length (zip_star cols) = L.
Proof.
  induction cols as [|c cols IH]; [done |]. intros _ [Hc Hcols]%Forall_cons.
  cbn [zip_star]. destruct cols as [|c' cols].
  - by rewrite length_fmap.
  - rewrite length_zip_with, IH by done. lia.
Qed.

Section validated.
Context (s : DataDict).
Hypothesis Hvalid : (validate s).2 = Ok true.

Lemma col_of_filled a : col_of (filled s) a = col_of s a.
Proof.
  unfold col_of. rewrite dict_get_filled. by destruct (dict_get s a) as [[? ? [?|]]|].
Qed.

Lemma length_col_of n v a :
  (n, v) ∈ s → a ∈ keys s → length (col_of s a) = field_length v.
Proof.
  intros Hin Ha. unfold col_of.
  destruct (dict_get s a) as [va|] eqn:E.
  - apply dict_get_elem_of in E. cbn.
    by rewrite <-(validate_ok_length s a va n v).
  - by apply dict_get_None in E.
Qed.

Lemma length_rows_of n v :
  (n, v) ∈ s → default [] (axes v) ≠ [] →
  length (rows_of s (default [] (axes v))) = field_length v.
Proof.
  intros Hin Hax. unfold rows_of. apply length_zip_star.
  - by destruct (default [] (axes v)).
  - apply Forall_fmap, Forall_forall. intros a Ha. cbn.
    apply (length_col_of n v a Hin), (validate_ok_axes s n v a Hvalid Hin Ha).
Qed.

Lemma multiindex_dataframe_ok n v :
  (n, v) ∈ s → default [] (axes v) ≠ [] →
  multiindex_dataframe (filled s) false n (fill_defaults v) = Ok (frame_of s n v).
Proof.
  intros Hin Hax. unfold multiindex_dataframe. cbn.
  rewrite (rmapM_ok _ (λ a, (col_of s a, a))); cycle 1.
  { apply Forall_forall. intros a Ha.
    assert (a ∈ keys s) as Hk by exact (validate_ok_axes s n v a Hvalid Hin Ha).
    unfold getitem, col_of. rewrite dict_get_filled.
    destruct (dict_get s a) as [va|] eqn:E; [done |].
    by apply dict_get_None in E. }
  cbn. rewrite <-!list_fmap_compose.
  rewrite (list_fmap_ext (snd ∘ _) id (default [] (axes v))) by done.
  rewrite (list_fmap_ext (fst ∘ _) (col_of s) (default [] (axes v))) by done.
  rewrite list_fmap_id. unfold pd_DataFrame.
  rewrite decide_True; [done |].
  symmetry. exact (length_rows_of n v Hin Hax).
Qed.

Lemma multiindex_loop_ok items dfs :
  items ⊆ s → NoDup (keys items) →
  ∃ dfs', multiindex_loop (filled s) false (filled items) dfs = Ok dfs' ∧
    ∀ k, dict_get dfs' k =
           match dict_get items k with
           | Some v => if decide (default [] (axes v) = []) then dict_get dfs k
                       else Some (frame_of s k v)
           | None => dict_get dfs k
           end.
Proof.
  revert dfs. induction items as [|[n v] items IH]; intros dfs Hsub Hnd.
  - exists dfs. done.
  - change (filled ((n, v) :: items)) with ((n, fill_defaults v) :: filled items).
    cbn [multiindex_loop]. cbn [get_axes fill_defaults axes mbind result_bind rbind].
    assert ((n, v) ∈ s) as Hin by (apply Hsub; left).
    assert (items ⊆ s) as Hsub' by (intros x Hx; apply Hsub; by right).
    unfold keys in Hnd. rewrite fmap_cons in Hnd. apply NoDup_cons in Hnd as [Hn Hnd].
    cbn [fst] in Hn. assert (dict_get items n = None) as Hn' by (by apply dict_get_None).
    destruct (decide (length (default [] (axes v)) = 0)) as [Hlen|Hlen].
    + destruct (IH dfs Hsub' Hnd) as (dfs' & -> & Hget). exists dfs'. split; [done |].
      intros k. rewrite Hget. cbn [dict_get]. case_decide as Hk; [|done]. subst k.
      rewrite Hn'.
      rewrite decide_True; [done |]. by destruct (default [] (axes v)).
    + assert (default [] (axes v) ≠ []) as Hax by (by intros E; rewrite E in Hlen).
      rewrite multiindex_dataframe_ok by done. cbn.
      destruct (IH (dict_set dfs n (frame_of s n v)) Hsub' Hnd) as (dfs' & -> & Hget).
      exists dfs'. split; [done |].
      intros k. rewrite Hget, dict_get_set. cbn [dict_get].
      destruct (decide (n = k)) as [->|Hk].
      * rewrite Hn'. by rewrite decide_False.
      * done.
Qed.

(** The tabulator succeeds, with a table for every field with axes and
    for no other name. *)
Lemma to_multiindex_dataframes_ok :
  NoDup (keys s) →
  ∃ dfs, to_multiindex_dataframes false s = (filled s, Ok dfs) ∧
    ∀ k, dict_get dfs k =
           match dict_get s k with
           | Some v => if decide (default [] (axes v) = []) then None
                       else Some (frame_of s k v)
           | None => None
           end.
Proof.
  intros Hnd. destruct (multiindex_loop_ok s [] (reflexivity _) Hnd) as (dfs & Hl & Hget).
  exists dfs. split; [|done].
  unfold to_multiindex_dataframes, mbind, M_bind, bind.
  rewrite (validate_ok_state s Hvalid). cbn. by rewrite Hl.
Qed.
End validated.

(** ** The grid builder *)

(** C9 (amended): on a store that validates, the tabulator leaves a field
    without axes out of its result, and [get_grid] for such a field raises
    [KeyError] with the name of the field. *)
Theorem get_grid_without_axes_raises (s : DataDict) (n : string) (v : Field)
    (mask_nan : bool) :
  (validate s).2 = Ok true → NoDup (keys s) →
  dict_get s n = Some v → default [] (axes v) = [] →
  (∃ dfs, (to_multiindex_dataframes false s).2 = Ok dfs ∧ dict_get dfs n = None)
  ∧ (get_grid (OneName n) mask_nan s).2 = Raise (KeyError n).
Proof.
  intros Hvalid Hnd Hn Hax.
  destruct (to_multiindex_dataframes_ok s Hvalid Hnd) as (dfs & Hdfs & Hget).
  assert (dict_get dfs n = None) as Hnone.
  { rewrite Hget, Hn. by rewrite decide_True. }
  split.
  - exists dfs. by rewrite Hdfs.
  - unfold get_grid, mbind, M_bind, bind. cbn [ret get_grid_loop].
    unfold grid_of, mbind, M_bind, bind, to_xarray, mbind, M_bind, bind.
    rewrite Hdfs. unfold lift, getitem. by rewrite Hnone.
Qed.

Lemma get_grid_without_axes_raises_witness :
  (∃ dfs, (to_multiindex_dataframes false example_store).2 = Ok dfs
          ∧ dict_get dfs "freq" = None)
  ∧ (get_grid (OneName "freq") true example_store).2 = Raise (KeyError "freq").
Proof.
  apply (get_grid_without_axes_raises example_store "freq"
           {| axes := Some []; unit_ := Some "Hz";
              values := Some [Num 1; Num 1; Num 2; Num 2] |} true).
  - reflexivity.
  - vm_compute. repeat constructor; set_solver.
  - reflexivity.
  - reflexivity.
Defined.

(** C9, as stated, fails: the grid of the axis field [freq] of the example
    store is no empty result, the call raises. *)
Lemma get_grid_without_axes_not_empty :
  (get_grid (OneName "freq") true example_store).2 = Raise (KeyError "freq").
Proof. reflexivity. Qed.

(** C1: [get_grid] ends in a bare [return]: whenever it returns, it
    returns [None] and no mapping; so it does on the example store, for all
    dependents and for the field [amplitude]. *)
Theorem get_grid_returns_no_mapping :
  (∀ (name : NameArg) (mask_nan : bool) (s : DataDict),
     (get_grid name mask_nan s).2 = Ok None ∨
     ∃ e, (get_grid name mask_nan s).2 = Raise e)
  ∧ (get_grid NoName true example_store).2 = Ok None
  ∧ (get_grid (OneName "amplitude") true example_store).2 = Ok None.
Proof.
  split; [|split; reflexivity].
  intros name mask_nan s. unfold get_grid, mbind, M_bind, bind.
  destruct (match name with
            | NoName => dependents
            | OneName n => ret [n]
            | Names ns => ret ns
            end s) as [s1 [names|e]]; [|by eauto].
  destruct (get_grid_loop names mask_nan None s1) as [s2 [r|e]]; [|by eauto].
  by left.
Qed.

(** ** [__add__] and [append] *)

Lemma structure_state (s : DataDict) : (structure s).1 = filled s.
Proof.
  unfold structure, mbind, M_bind, bind. rewrite validate_spec.
  case_decide; [|done]. unfold get, lift. by destruct (structure_items _).
Qed.

(** C5: on two stores whose structures are defined and differ, [__add__]
    raises the compatibility error, but [append] returns without raising,
    and neither store has gained a value. *)
Theorem append_is_silent_on_mismatch (s1 s2 : DataDict)
    (t1 t2 : dict (list string * string)) :
  (structure s1).2 = Ok t1 → (structure s2).2 = Ok t2 →
  dict_eqb t1 t2 = false →
  (add (s1, s2)).2 = Raise CompatibilityError ∧
  append (s1, s2) = ((filled s1, filled s2), Ok ()).
Proof.
  intros H1 H2 Hne.
  pose proof (structure_state s1) as E1. pose proof (structure_state s2) as E2.
  unfold add, append, mbind, M_bind, bind, on_self, on_newdata.
  cbn [fst snd].
  destruct (structure s1) as [s1' r1]. cbn in H1, E1. subst. cbn [fst snd].
  destruct (structure s2) as [s2' r2]. cbn in H2, E2. subst.
  by rewrite Hne.
Qed.

Lemma append_is_silent_on_mismatch_witness :
  (add (example_store, other_store)).2 = Raise CompatibilityError ∧
  append (example_store, other_store) =
    ((filled example_store, filled other_store), Ok ()).
Proof.
  eapply (append_is_silent_on_mismatch example_store other_store).
  - vm_compute. reflexivity.
  - vm_compute. reflexivity.
  - vm_compute. reflexivity.
Defined.

(** ** The shape conflict of [get_grid] is never raised *)

Lemma rbind_raise {A B} (m : result A) (k : A → result B) (e : exn) :
  m ≫= k = Raise e → m = Raise e ∨ ∃ a, m = Ok a ∧ k a = Raise e.
Proof. destruct m as [a|e']; cbn; [by eauto |]. intros [= <-]. by left. Qed.

Lemma bind_raise {S A B} (m : M S A) (k : A → M S B) (s : S) (e : exn) :
  ((m ≫= k) s).2 = Raise e →
  (m s).2 = Raise e ∨ ∃ a, m s = ((m s).1, Ok a) ∧ (k a (m s).1).2 = Raise e.
Proof.
  unfold mbind, M_bind, bind. destruct (m s) as [s1 [a|e']]; cbn; [by eauto |].
  intros [= <-]. by left.
Qed.

Lemma no_conflict_KeyError k : no_conflict (KeyError k).
Proof. by intros idxn. Qed.

Lemma no_conflict_TypeError m : no_conflict (TypeError m).
Proof. by intros idxn. Qed.

Lemma no_conflict_LibraryError w : no_conflict (LibraryError w).
Proof. by intros idxn. Qed.

Lemma no_conflict_validate (s : DataDict) e :
  (validate s).2 = Raise e → no_conflict e.
Proof.
  rewrite validate_spec. cbn [snd]. case_decide; [done |].
  intros [= <-] idxn. unfold ShapeConflictError, nl.
  rewrite !string_app_cons. discriminate.
Qed.

Create HintDb conflict.
#[local] Hint Resolve no_conflict_KeyError no_conflict_TypeError
  no_conflict_LibraryError : conflict.

Lemma no_conflict_getitem {A} (d : dict A) k e :
  getitem d k = Raise e → no_conflict e.
Proof. unfold getitem. case_match; intros [= <-]; auto with conflict. Qed.

Lemma no_conflict_get_axes v e : get_axes v = Raise e → no_conflict e.
Proof. unfold get_axes. case_match; intros [= <-]; auto with conflict. Qed.

Lemma no_conflict_get_unit v e : get_unit v = Raise e → no_conflict e.
Proof. unfold get_unit. case_match; intros [= <-]; auto with conflict. Qed.

Lemma no_conflict_get_values v e : get_values v = Raise e → no_conflict e.
Proof. unfold get_values. case_match; intros [= <-]; auto with conflict. Qed.

#[local] Hint Resolve no_conflict_getitem no_conflict_get_axes
  no_conflict_get_unit no_conflict_get_values : conflict.

(** Splits a monadic equation [_ = Raise e] into its cases. *)
Ltac raise_cases H :=
  repeat match type of H with
         | _ ≫= _ = _ =>
             apply rbind_raise in H as [?|(? & ? & H)];
             [by eauto with conflict |]
         | (if ?b then _ else _) = _ => destruct b
         | Ok _ = Raise _ => discriminate H
         | Raise _ = Raise _ => injection H as <-
         end.

Lemma no_conflict_rmapM {A B} (f : A → result B) (l : list A) e :
  (∀ x e, f x = Raise e → no_conflict e) →
  rmapM f l = Raise e → no_conflict e.
Proof.
  intros Hf. induction l as [|x l IH]; [done |]. cbn [rmapM]. intros H.
  apply rbind_raise in H as [?|(? & ? & H)]; [by eauto |].
  apply rbind_raise in H as [?|(? & ? & H)]; [by eauto | done].
Qed.

Lemma no_conflict_unit_name self use_units name e :
  unit_name self use_units name = Raise e → no_conflict e.
Proof. unfold unit_name. intros H. destruct use_units; [|done]. raise_cases H. Qed.

Lemma no_conflict_multiindex_dataframe self use_units n v e :
  multiindex_dataframe self use_units n v = Raise e → no_conflict e.
Proof.
  unfold multiindex_dataframe. intros H.
  apply rbind_raise in H as [?|(? & ? & H)]; [by eauto with conflict |].
  apply rbind_raise in H as [?|(? & ? & H)]; [by eauto with conflict |].
  apply rbind_raise in H as [Hr1|(? & ? & H)].
  { eapply no_conflict_rmapM; [|done]. intros a e' Ha. cbn beta in Ha.
    apply rbind_raise in Ha as [?|(? & ? & Ha)]; [by eauto with conflict |].
    apply rbind_raise in Ha as [?|(? & ? & Ha)]; [by eauto with conflict |].
    apply rbind_raise in Ha as [?|(? & ? & Ha)];
      [by eauto using no_conflict_unit_name | done]. }
  apply rbind_raise in H as [Hr3|(? & ? & H)]; [by eauto using no_conflict_unit_name |].
  unfold pd_DataFrame in H. case_decide; [done |]. injection H as <-. auto with conflict.
Qed.

Lemma no_conflict_multiindex_loop self use_units items dfs e :
  multiindex_loop self use_units items dfs = Raise e → no_conflict e.
Proof.
  revert dfs. induction items as [|[n v] items IH]; intros dfs; [done |].
  cbn [multiindex_loop]. intros H.
  apply rbind_raise in H as [?|(? & ? & H)]; [by eauto with conflict |].
  case_decide; [by eauto |].
  apply rbind_raise in H as [?|(? & ? & H)];
    [by eauto using no_conflict_multiindex_dataframe | by eauto].
Qed.

Lemma no_conflict_to_multiindex_dataframes use_units (s : DataDict) e :
  (to_multiindex_dataframes use_units s).2 = Raise e → no_conflict e.
Proof.
  unfold to_multiindex_dataframes. intros H.
  apply bind_raise in H as [H|(ok & Hv & H)]; [by eauto using no_conflict_validate |].
  destruct ok; [|done]. unfold mbind, M_bind, bind, get, lift in H. cbn in H.
  eauto using no_conflict_multiindex_loop.
Qed.


Lemma no_conflict_unstack arr dim e : unstack arr dim = Raise e → no_conflict e.
Proof.
  unfold unstack. repeat case_match; intros [= <-]; auto with conflict.
Qed.

Lemma no_conflict_squeeze_drop arr dim e :
  squeeze_drop arr dim = Raise e → no_conflict e.
Proof.
  unfold squeeze_drop. repeat case_match; intros [= <-]; auto with conflict.
Qed.

Lemma no_conflict_to_xarray_loop self arr idxns e :
  to_xarray_loop self arr idxns = Raise e → no_conflict e.
Proof.
  revert arr. induction idxns as [|idxn idxns IH]; intros arr; [done |].
  cbn [to_xarray_loop]. intros H.
  apply rbind_raise in H as [H|(arr1 & _ & H)]; [|by eauto].
  unfold to_xarray_step in H.
  apply rbind_raise in H as [H|(idx & _ & H)]; [by eauto with conflict |].
  destruct (negb (contains self idxn)); [|done].
  destruct (is_MultiIndex idx); eauto using no_conflict_unstack, no_conflict_squeeze_drop.
Qed.

Lemma to_xarray_inv (n : string) (s : DataDict) :
  (∃ e, (to_xarray n s).2 = Raise e ∧ no_conflict e) ∨
  (∃ arr, to_xarray n s = ((to_xarray n s).1, Ok arr)).
Proof.
  unfold to_xarray, mbind, M_bind, bind.
  destruct (to_multiindex_dataframes false s) as [s1 [dfs|e]] eqn:E1; cycle 1.
  { left. exists e. split; [done |].
    apply (no_conflict_to_multiindex_dataframes false s). by rewrite E1. }
  unfold lift at 1. destruct (getitem dfs n) as [df|e] eqn:E2; cycle 1.
  { left. exists e. split; [done |]. eauto with conflict. }
  cbn [get lift].
  destruct (to_xarray_loop s1 (xr_DataArray df) _) as [arr|e] eqn:E3.
  - right. by exists arr.
  - left. exists e. split; [done |]. eauto using no_conflict_to_xarray_loop.
Qed.

Lemma no_conflict_grid_values mask_nan arr e :
  grid_values mask_nan arr = Raise e → no_conflict e.
Proof.
  unfold grid_values. repeat case_match; intros [= <-]; auto with conflict.
Qed.

Lemma grid_axis_loop_no_conflict self arr ret idxns e :
  NoDup idxns → (∀ k, k ∈ keys ret → k ∉ idxns) →
  grid_axis_loop self arr ret idxns = Raise e → no_conflict e.
Proof.
  revert ret. induction idxns as [|idxn idxns IH]; intros ret Hnd Hret; [done |].
  apply NoDup_cons in Hnd as [Hidxn Hnd]. cbn [grid_axis_loop]. intros H.
  apply rbind_raise in H as [H|(ret1 & Hstep & H)].
  - unfold grid_axis_step in H.
    apply rbind_raise in H as [H|(idx & _ & H)]; [by eauto with conflict |].
    unfold contains in H. rewrite bool_decide_false in H; cycle 1.
    { intros Hk. apply (Hret _ Hk). left. }
    cbn in H. raise_cases H.
  - eapply (IH ret1); [done | | done].
    unfold grid_axis_step in Hstep.
    destruct (getitem (indexes arr) idxn) as [idx|]; [|done]. cbn in Hstep.
    unfold contains in Hstep. rewrite bool_decide_false in Hstep; cycle 1.
    { intros Hk. apply (Hret _ Hk). left. }
    cbn in Hstep.
    destruct (getitem self idxn) as [v|]; [|done]. cbn in Hstep.
    destruct (get_unit v) as [u|]; [|done]. cbn in Hstep. injection Hstep as <-.
    intros k. rewrite keys_dict_set. case_decide.
    + intros Hk Hin. apply (Hret k Hk). by right.
    + intros [Hk| ->%list_elem_of_singleton]%elem_of_app; [|done].
      intros Hin. apply (Hret k Hk). by right.
Qed.

Lemma no_conflict_grid_of (n : string) (mask_nan : bool) (s : DataDict) e :
  (grid_of n mask_nan s).2 = Raise e → no_conflict e.
Proof.
  unfold grid_of. intros H.
  apply bind_raise in H as [H|(arr & Harr & H)].
  { destruct (to_xarray_inv n s) as [(e' & He & ?)|(arr & He)]; [congruence |].
    rewrite He in H. done. }
  unfold mbind, M_bind, bind, get, lift, ret in H. cbn in H.
  match type of H with
  | context [grid_axis_loop ?a ?b ?c ?d] =>
      destruct (grid_axis_loop a b c d) as [ret1|e1] eqn:E1; cbn in H
  end.
  - destruct (grid_values mask_nan arr) as [g|e0] eqn:E0; cbn in H;
      [|injection H as <-; eauto using no_conflict_grid_values].
    match type of H with
    | context [getitem ?a ?b] => destruct (getitem a b) as [f|e2] eqn:E2; cbn in H
    end; [|injection H as <-; eauto with conflict].
    destruct (get_axes f) as [a|e3] eqn:E3; cbn in H;
      [|injection H as <-; eauto with conflict].
    destruct (get_unit f) as [u|e4] eqn:E4; cbn in H;
      [done |injection H as <-; eauto with conflict].
  - injection H as <-.
    eapply grid_axis_loop_no_conflict; [apply (NoDup_keys_to_dict (dims arr)) | | done].
    intros k []%elem_of_nil.
Qed.

Lemma no_conflict_get_grid_loop names mask_nan r0 (s : DataDict) e :
  (get_grid_loop names mask_nan r0 s).2 = Raise e → no_conflict e.
Proof.
  revert r0 s. induction names as [|n names IH]; intros r0 s; [done |].
  cbn [get_grid_loop]. intros H.
  apply bind_raise in H as [H|(r & _ & H)]; eauto using no_conflict_grid_of.
Qed.

(** C2: [get_grid] never raises the shape conflict, whatever the store and
    the fields asked for: the mapping [ret] is created anew for every field,
    so the test for a name recorded before never holds.  On
    [conflict_store] the name [x] is the data of the grid of [x], with four
    cells, and an axis of the grid of [a], with two coordinates; the call
    for both fields returns without raising. *)
Theorem get_grid_never_raises_shape_conflict :
  (∀ (name : NameArg) (mask_nan : bool) (s : DataDict) (idxn : string),
     (get_grid name mask_nan s).2 ≠ Raise (ShapeConflictError idxn))
  ∧ (∃ ex ea,
       (grid_of "x" true conflict_store).2 ≫= (λ r, getitem r "x") = Ok ex
       ∧ (grid_of "a" true conflict_store).2 ≫= (λ r, getitem r "x") = Ok ea
       ∧ values_shape (e_values ex) = [4]
       ∧ values_shape (e_values ea) = [2])
  ∧ (get_grid (Names ["x"; "a"]) true conflict_store).2 = Ok None.
Proof.
  split; [|split].
  - intros name mask_nan s idxn H.
    assert (no_conflict (ShapeConflictError idxn)) as Hn; [|by apply (Hn idxn)].
    unfold get_grid in H.
    apply bind_raise in H as [H|(names & _ & H)].
    { destruct name; [|done..]. unfold dependents in H.
      apply bind_raise in H as [H|(ok & _ & H)]; [by eauto using no_conflict_validate |].
      by destruct ok. }
    apply bind_raise in H as [H|(? & _ & H)]; [|done].
    eauto using no_conflict_get_grid_loop.
  - do 2 eexists. split_and!; vm_compute; reflexivity.
  - vm_compute. reflexivity.
Qed.

(** ** Levels, products and rows *)

Lemma zip_star_lookup {A} (cols : list (list A)) (i : nat) (t : list A) :
  zip_star cols !! i = Some t → Forall2 (λ x c, c !! i = Some x) t cols.
Proof.
  revert t. induction cols as [|c cols IH]; intros t; [done |].
  destruct cols as [|c' cols].
  - cbn [zip_star]. rewrite list_lookup_fmap.
    intros (x & Hx & ->)%fmap_Some. by repeat constructor.
  - change (zip_star (c :: c' :: cols))
      with (zip_with cons c (zip_star (c' :: cols))).
    intros (x & r & -> & Hx & Hr)%lookup_zip_with_Some.
    constructor; [done |]. by apply IH.
Qed.





















(** ** The grid of one field *)





Lemma squeeze_drop_column (c : string) (rest : dict Index) (d : list scalar)
    (dt : dtype) :
  squeeze_drop {| dims := ("dim_1", ColumnIndex [c]) :: rest; data := d;
                  dtype_of := dt |} "dim_1"
  = Ok {| dims := rest; data := d; dtype_of := dt |}.
Proof. reflexivity. Qed.





Section gridding.
Context (s : DataDict) (n : string) (v : Field).
Hypothesis Hvalid : (validate s).2 = Ok true.
Hypothesis Hnd : NoDup (keys s).
Hypothesis Hdim0 : "dim_0" ∉ keys s.
Hypothesis Hdim1 : "dim_1" ∉ keys s.
Hypothesis Hn : dict_get s n = Some v.
Hypothesis Hax : default [] (axes v) ≠ [].
Hypothesis Hrows : NoDup (rows_of s (default [] (axes v))).
Hypothesis Hnan :
  Forall (Forall (λ x, isnan x = false)) (rows_of s (default [] (axes v))).




End gridding.































(** Decides a closed decidable proposition by evaluation. *)
Ltac by_evaluation :=
  lazymatch goal with
  | |- ?P => apply (@bool_decide_unpack P _); vm_compute; exact I
  end.



(** * Further properties *)

(** ** Further properties of the validator *)

Lemma validate_ok_intro (s : DataDict) :
  (∀ n v na, (n, v) ∈ s → na ∈ default [] (axes v) → na ∈ keys s) →
  (∀ n v n' v', (n, v) ∈ s → (n', v') ∈ s → field_length v = field_length v') →
  (validate s).2 = Ok true.
Proof.
  intros Haxes Hlen. rewrite validate_spec. cbn [snd].
  rewrite decide_True; [done |]. apply violation_lines_nil.
  intros [(n & na & v & axs & Hin & Hax & Hna & Hk)
         |(n & len & nv & src & v & Hin & Hl & Href & Hne)].
  - apply Hk, (Haxes n v na Hin). by rewrite Hax.
  - destruct s as [|[n0 v0] s]; [done |]. injection Href as <- <-.
    apply Hne. rewrite <-Hl. apply (Hlen n v n0 v0 Hin). left.
Qed.

(** X1: [validate] returns [True] exactly on the stores that the class
    documents as valid: every axis that a field names is a field of the
    store, and all fields have the same number of values (an absent key
    counting as empty). *)
Theorem validate_ok_iff_consistent (s : DataDict) :
  (validate s).2 = Ok true ↔
    (∀ n v na, (n, v) ∈ s → na ∈ default [] (axes v) → na ∈ keys s) ∧
    (∀ n v n' v', (n, v) ∈ s → (n', v') ∈ s → field_length v = field_length v').
Proof.
  split.
  - intros Hvalid. split.
    + intros n v na. apply validate_ok_axes, Hvalid.
    + intros n v n' v'. apply validate_ok_length, Hvalid.
  - intros [Haxes Hlen]. by apply validate_ok_intro.
Qed.

Lemma validate_raise_state (s : DataDict) e :
  (validate s).2 = Raise e → validate s = (filled s, Raise e).
Proof. rewrite validate_spec. cbn [snd]. by intros ->. Qed.

Lemma validate_state (s : DataDict) : (validate s).1 = filled s.
Proof. by rewrite validate_spec. Qed.

(** A method that begins with [if self.validate():] raises what
    [validate] raises. *)
Lemma bind_validate_raise {A} (k : bool → M DataDict A) (s : DataDict) e :
  (validate s).2 = Raise e → (validate ≫= k) s = (filled s, Raise e).
Proof.
  intros Hv%validate_raise_state. unfold mbind, M_bind, bind. by rewrite Hv.
Qed.

Lemma to_xarray_validate_raise n (s : DataDict) e :
  (validate s).2 = Raise e → to_xarray n s = (filled s, Raise e).
Proof.
  intros Hv. unfold to_xarray, to_multiindex_dataframes.
  unfold mbind at 1, M_bind at 1, bind at 1.
  by rewrite (bind_validate_raise _ s e Hv).
Qed.

Lemma grid_of_validate_raise n mask_nan (s : DataDict) e :
  (validate s).2 = Raise e → grid_of n mask_nan s = (filled s, Raise e).
Proof.
  intros Hv. unfold grid_of. unfold mbind at 1, M_bind at 1, bind at 1.
  by rewrite (to_xarray_validate_raise n s e Hv).
Qed.

(** X2: what [validate] raises, every method that begins with it raises
    unchanged: [structure], [label], [dependents], [_value_dict],
    [to_multiindex_dataframes], [to_xarray], [get_grid] for at least one
    field, [__add__] and [append] on [self]. *)
Theorem validate_failure_propagates (s s2 : DataDict) (e : exn)
    (name n : string) (ns : list string) (use_units mask_nan : bool) :
  (validate s).2 = Raise e →
  (structure s).2 = Raise e
  ∧ (label name s).2 = Raise e
  ∧ (dependents s).2 = Raise e
  ∧ (_value_dict use_units s).2 = Raise e
  ∧ (to_multiindex_dataframes use_units s).2 = Raise e
  ∧ (to_xarray name s).2 = Raise e
  ∧ (get_grid NoName mask_nan s).2 = Raise e
  ∧ (get_grid (OneName n) mask_nan s).2 = Raise e
  ∧ (get_grid (Names (n :: ns)) mask_nan s).2 = Raise e
  ∧ (add (s, s2)).2 = Raise e
  ∧ (append (s, s2)).2 = Raise e.
Proof.
  intros Hv. split_and!.
  - unfold structure. by rewrite (bind_validate_raise _ s e Hv).
  - unfold label. by rewrite (bind_validate_raise _ s e Hv).
  - unfold dependents. by rewrite (bind_validate_raise _ s e Hv).
  - unfold _value_dict. by rewrite (bind_validate_raise _ s e Hv).
  - unfold to_multiindex_dataframes. by rewrite (bind_validate_raise _ s e Hv).
  - by rewrite (to_xarray_validate_raise name s e Hv).
  - unfold get_grid, dependents. unfold mbind at 1, M_bind at 1, bind at 1.
    by rewrite (bind_validate_raise _ s e Hv).
  - unfold get_grid, mbind, M_bind, bind. cbn [ret get_grid_loop].
    unfold mbind, M_bind, bind. by rewrite (grid_of_validate_raise n _ s e Hv).
  - unfold get_grid, mbind, M_bind, bind. cbn [ret get_grid_loop].
    unfold mbind, M_bind, bind. by rewrite (grid_of_validate_raise n _ s e Hv).
  - unfold add, mbind, M_bind, bind, on_self, structure. cbn [fst].
    by rewrite (bind_validate_raise _ s e Hv).
  - unfold append, mbind, M_bind, bind, on_self, structure. cbn [fst].
    by rewrite (bind_validate_raise _ s e Hv).
Qed.

(** ** The queries change the store by default filling only *)

Lemma bind_validate_state {A} (k : bool → M DataDict A) (s : DataDict) :
  (∀ ok t, (k ok t).1 = t) → ((validate ≫= k) s).1 = filled s.
Proof.
  intros Hk. unfold mbind, M_bind, bind. rewrite validate_spec.
  case_decide; [apply Hk | done].
Qed.

Lemma get_lift_state {A} (f : DataDict → result A) (t : DataDict) :
  ((get ≫= λ self, lift (f self)) t).1 = t.
Proof. unfold mbind, M_bind, bind, get, lift. by destruct (f t). Qed.

Lemma to_multiindex_dataframes_state use_units (s : DataDict) :
  (to_multiindex_dataframes use_units s).1 = filled s.
Proof.
  unfold to_multiindex_dataframes. apply bind_validate_state.
  intros [] t; [apply get_lift_state | done].
Qed.

Lemma to_xarray_state n (s : DataDict) : (to_xarray n s).1 = filled s.
Proof.
  unfold to_xarray, mbind, M_bind, bind.
  pose proof (to_multiindex_dataframes_state false s) as E.
  destruct (to_multiindex_dataframes false s) as [s1 [dfs|e]]; cbn in E; subst;
    [|done].
  unfold lift, get. destruct (getitem dfs n); [|done].
  by destruct (to_xarray_loop _ _ _).
Qed.

Lemma grid_of_state n mask_nan (s : DataDict) : (grid_of n mask_nan s).1 = filled s.
Proof.
  unfold grid_of, mbind, M_bind, bind.
  pose proof (to_xarray_state n s) as E.
  destruct (to_xarray n s) as [s1 [arr|e]]; cbn in E; subst; [|done].
  unfold lift, get, ret.
  destruct (grid_axis_loop _ _ _ _); [|done].
  destruct (grid_values mask_nan arr); [|done].
  destruct (getitem _ n) as [f|]; [|done].
  destruct (get_axes f); [|done]. by destruct (get_unit f).
Qed.

Lemma get_grid_loop_state names mask_nan r0 (t : DataDict) :
  (get_grid_loop names mask_nan r0 t).1 =
    match names with [] => t | _ => filled t end.
Proof.
  revert r0 t. induction names as [|n names IH]; intros r0 t; [done |].
  cbn [get_grid_loop]. unfold mbind, M_bind, bind.
  pose proof (grid_of_state n mask_nan t) as E.
  destruct (grid_of n mask_nan t) as [t1 [r|e]]; cbn in E; subst; [|done].
  rewrite IH. destruct names; [done | apply filled_idemp].
Qed.

Lemma dependents_state (s : DataDict) : (dependents s).1 = filled s.
Proof. unfold dependents. apply bind_validate_state. by intros [] t. Qed.

(** X3: the queries change the store by the default filling of [validate]
    and in no other way, whether they return or raise; [get_grid] for an
    empty list of names does not touch the store at all. *)
Theorem queries_only_fill_defaults (s : DataDict) (name : string)
    (use_units mask_nan : bool) (arg : NameArg) :
  (structure s).1 = filled s
  ∧ (label name s).1 = filled s
  ∧ (dependents s).1 = filled s
  ∧ (_value_dict use_units s).1 = filled s
  ∧ (to_multiindex_dataframes use_units s).1 = filled s
  ∧ (to_xarray name s).1 = filled s
  ∧ (get_grid arg mask_nan s).1 =
      match arg with Names [] => s | _ => filled s end.
Proof.
  split_and!.
  - apply structure_state.
  - unfold label. apply bind_validate_state. intros [] t; [|done].
    unfold mbind, M_bind, bind, get, lift, raise, ret.
    destruct (negb (contains t name)); [done |].
    destruct (getitem t name) as [v|]; [|done].
    destruct (get_unit v); [|done]. by case_decide.
  - apply dependents_state.
  - unfold _value_dict. apply bind_validate_state.
    intros [] t; [apply get_lift_state | done].
  - apply to_multiindex_dataframes_state.
  - apply to_xarray_state.
  - unfold get_grid, mbind, M_bind, bind.
    destruct arg as [|n|ns].
    + pose proof (dependents_state s) as E.
      destruct (dependents s) as [s1 [names|e]]; cbn in E; subst; [|done].
      pose proof (get_grid_loop_state names mask_nan None (filled s)) as E.
      destruct (get_grid_loop names mask_nan None (filled s)) as [s2 [r|e]];
        cbn in E; subst; cbn; destruct names; try done; apply filled_idemp.
    + cbn [ret].
      pose proof (get_grid_loop_state [n] mask_nan None s) as E.
      by destruct (get_grid_loop [n] mask_nan None s) as [s2 [r|e]];
        cbn in E; subst.
    + cbn [ret].
      pose proof (get_grid_loop_state ns mask_nan None s) as E.
      destruct (get_grid_loop ns mask_nan None s) as [s2 [r|e]];
        cbn in E; subst; by destruct ns.
Qed.

(** ** [structure], [__add__] and [append] on compatible stores *)

Lemma structure_items_filled (s : DataDict) :
  structure_items (filled s) = Ok (structure_of s).
Proof.
  unfold structure_items, filled, structure_of.
  rewrite (rmapM_ok _ (λ nv, (nv.1, (default [] (axes nv.2), default "" (unit_ nv.2))))).
  - by rewrite <-list_fmap_compose.
  - apply Forall_fmap, Forall_forall. by intros [n v] _.
Qed.

Lemma structure_ok (s : DataDict) :
  (validate s).2 = Ok true → structure s = (filled s, Ok (structure_of s)).
Proof.
  intros Hv%validate_ok_state. unfold structure, mbind, M_bind, bind.
  rewrite Hv. unfold get, lift. by rewrite structure_items_filled.
Qed.

Lemma structure_inv (s : DataDict) t :
  (structure s).2 = Ok t → (validate s).2 = Ok true ∧ t = structure_of s.
Proof.
  intros H. destruct (validate s) as [s' [[]|e]] eqn:E.
  - assert ((validate s).2 = Ok true) as Hv by (by rewrite E).
    rewrite (structure_ok s Hv) in H. by injection H as <-.
  - exfalso. revert E. rewrite validate_spec. by case_decide.
  - exfalso. unfold structure, mbind, M_bind, bind in H. by rewrite E in H.
Qed.

Lemma list_to_map_dict_get {A} (d : dict A) (k : string) :
  (list_to_map d : gmap string A) !! k = dict_get d k.
Proof.
  induction d as [|[k' v] d IH]; [done |]. cbn [list_to_map dict_get foldr].
  cbn. rewrite lookup_insert. by repeat case_decide.
Qed.

Lemma dict_eqb_get {A} `{EqDecision A} (d1 d2 : dict A) (k : string) :
  dict_eqb d1 d2 = true → dict_get d1 k = dict_get d2 k.
Proof.
  intros H%bool_decide_eq_true. by rewrite <-!list_to_map_dict_get, H.
Qed.

Lemma keys_structure_of s : keys (structure_of s) = keys s.
Proof.
  unfold keys, structure_of. rewrite <-list_fmap_compose. by apply list_fmap_ext.
Qed.

Lemma dict_eqb_keys (s1 s2 : DataDict) k :
  dict_eqb (structure_of s1) (structure_of s2) = true →
  k ∈ keys s1 → k ∈ keys s2.
Proof.
  intros Heq Hk. rewrite <-keys_structure_of in *.
  destruct (decide (k ∈ keys (structure_of s2))) as [|Hn]; [done |].
  apply dict_get_None in Hn. rewrite <-(dict_eqb_get _ _ k Heq) in Hn.
  by apply dict_get_None in Hn.
Qed.

Lemma elem_of_dict_get {A} (d : dict A) k v :
  NoDup (keys d) → (k, v) ∈ d → dict_get d k = Some v.
Proof.
  induction d as [|[k' v'] d IH]; [by intros _ ?%elem_of_nil |].
  unfold keys. rewrite fmap_cons. intros [Hk Hnd]%NoDup_cons.
  cbn [dict_get]. intros [[= -> ->]|Hin]%elem_of_cons.
  - by rewrite decide_True.
  - rewrite decide_False; [by apply IH |].
    intros ->. apply Hk. apply list_elem_of_fmap. by exists (k, v).
Qed.

Lemma dict_get_app_fresh {A} (d1 d2 : dict A) k :
  k ∉ keys d1 → dict_get (d1 ++ d2) k = dict_get d2 k.
Proof.
  induction d1 as [|[k' v] d1 IH]; [done |]. unfold keys. rewrite fmap_cons.
  intros [Hne Hk]%not_elem_of_cons. cbn [app dict_get].
  rewrite decide_False by done. by apply IH.
Qed.

Lemma dict_set_app_fresh {A} (d1 d2 : dict A) k (v : A) :
  k ∉ keys d1 → dict_set (d1 ++ d2) k v = d1 ++ dict_set d2 k v.
Proof.
  induction d1 as [|[k' v'] d1 IH]; [done |]. unfold keys. rewrite fmap_cons.
  intros [Hne Hk]%not_elem_of_cons. cbn [app dict_set].
  rewrite decide_False by done. f_equal. by apply IH.
Qed.

Lemma joined_values_filled (s1 s2 : DataDict) k v :
  dict_get s1 k = Some v → k ∈ keys s2 →
  joined_values (filled s1) (filled s2) k
  = Ok (default [] (values v) ++ col_of s2 k).
Proof.
  intros H1 H2. unfold joined_values, getitem, col_of.
  rewrite !dict_get_filled, H1. cbn.
  destruct (dict_get s2 k) as [v2|] eqn:E; [done |].
  by apply dict_get_None in E.
Qed.

Lemma add_loop_spec (s1 s2 acc todo : DataDict) :
  (∀ k v, (k, v) ∈ todo → dict_get s1 k = Some v ∧ k ∈ keys s2) →
  NoDup (keys acc ++ keys todo) →
  add_loop (filled s1) (filled s2) (keys todo)
    (acc ++ structure_store (structure_of todo))
  = Ok (acc ++ joined todo s2).
Proof.
  revert acc. induction todo as [|[k v] todo IH]; intros acc Htodo Hnd; [done |].
  destruct (Htodo k v) as [Hget Hk2]; [left |].
  apply NoDup_app in Hnd as (Hnd1 & Hdis & Hnd2).
  unfold keys in Hnd2, Hdis. rewrite fmap_cons in Hnd2, Hdis.
  apply NoDup_cons in Hnd2 as [Hk Hnd2].
  assert (k ∉ keys acc) as Hkd.
  { intros Hin. apply (Hdis k Hin). left. }
  change (keys ((k, v) :: todo)) with (k :: keys todo).
  cbn [add_loop]. rewrite (joined_values_filled s1 s2 k v Hget Hk2).
  cbn [mbind result_bind rbind].
  change (structure_store (structure_of ((k, v) :: todo)))
    with ((k, {| axes := Some (default [] (axes v));
                 unit_ := Some (default "" (unit_ v)); values := None |})
          :: structure_store (structure_of todo)).
  unfold getitem. rewrite dict_get_app_fresh by done. cbn [dict_get].
  rewrite decide_True by done. cbn [mbind result_bind rbind axes unit_].
  rewrite dict_set_app_fresh by done. cbn [dict_set]. rewrite decide_True by done.
  rewrite (cons_middle _ acc), app_assoc. rewrite IH.
  - change (joined ((k, v) :: todo) s2) with
      ((k, {| axes := Some (default [] (axes v));
              unit_ := Some (default "" (unit_ v));
              values := Some (default [] (values v) ++ col_of s2 k) |})
       :: joined todo s2).
    by rewrite <-app_assoc.
  - intros k' v' Hin. apply Htodo. by right.
  - unfold keys. rewrite fmap_app, fmap_cons, <-app_assoc. cbn [fmap list_fmap app fst].
    apply NoDup_app. split_and!; [done | |].
    + intros x Hx [->|Hin]%elem_of_cons; [done |]. apply (Hdis x Hx). by right.
    + apply NoDup_cons. done.
Qed.

Lemma add_ok (s1 s2 : DataDict) :
  (validate s1).2 = Ok true → (validate s2).2 = Ok true →
  dict_eqb (structure_of s1) (structure_of s2) = true → NoDup (keys s1) →
  add (s1, s2) = ((filled s1, filled s2), Ok (joined s1 s2)).
Proof.
  intros Hv1 Hv2 Heq Hnd. unfold add, mbind, M_bind, bind, on_self, on_newdata.
  cbn [fst snd]. rewrite (structure_ok s1 Hv1). cbn [fst snd].
  rewrite (structure_ok s2 Hv2), Heq. unfold get, lift. cbn [fst snd].
  rewrite keys_filled.
  pose proof (add_loop_spec s1 s2 [] s1) as H. cbn [app] in H. rewrite H; [done | |done].
  intros k v Hin. split; [by apply elem_of_dict_get |].
  apply (dict_eqb_keys s1 s2 k Heq). apply list_elem_of_fmap. by exists (k, v).
Qed.

(** What a successful [__add__] tells about its operands. *)
Lemma add_inv (s1 s2 r : DataDict) :
  (add (s1, s2)).2 = Ok r →
  (validate s1).2 = Ok true ∧ (validate s2).2 = Ok true ∧
  dict_eqb (structure_of s1) (structure_of s2) = true.
Proof.
  unfold add, mbind, M_bind, bind, on_self, on_newdata. cbn [fst snd].
  destruct (structure s1) as [s1' [t1|e]] eqn:E1; [|done]. cbn [fst snd].
  destruct (structure s2) as [s2' [t2|e]] eqn:E2; [|done].
  destruct (structure_inv s1 t1) as [Hv1 ->]; [by rewrite E1 |].
  destruct (structure_inv s2 t2) as [Hv2 ->]; [by rewrite E2 |].
  destruct (dict_eqb _ _) eqn:Heq; [done |]. by intros [=].
Qed.

Lemma length_col_of_key (s : DataDict) (L : nat) k :
  (∀ n v, (n, v) ∈ s → field_length v = L) → k ∈ keys s →
  length (col_of s k) = L.
Proof.
  intros HL Hk. unfold col_of. destruct (dict_get s k) as [v|] eqn:E.
  - apply dict_get_elem_of in E. by apply HL in E.
  - by apply dict_get_None in E.
Qed.

Lemma common_length (s : DataDict) :
  (validate s).2 = Ok true → ∃ L, ∀ n v, (n, v) ∈ s → field_length v = L.
Proof.
  intros Hv. destruct s as [|[n0 v0] s].
  - exists 0. by intros n v ?%elem_of_nil.
  - exists (field_length v0). intros n v Hin.
    apply (validate_ok_length _ n v n0 v0 Hv Hin). left.
Qed.

Lemma keys_joined s1 s2 : keys (joined s1 s2) = keys s1.
Proof.
  unfold keys, joined. rewrite <-list_fmap_compose. by apply list_fmap_ext.
Qed.

Lemma structure_of_joined s1 s2 : structure_of (joined s1 s2) = structure_of s1.
Proof.
  unfold structure_of, joined. rewrite <-list_fmap_compose. by apply list_fmap_ext.
Qed.

Lemma validate_joined (s1 s2 : DataDict) :
  (validate s1).2 = Ok true → (validate s2).2 = Ok true →
  dict_eqb (structure_of s1) (structure_of s2) = true →
  (validate (joined s1 s2)).2 = Ok true.
Proof.
  intros Hv1 Hv2 Heq.
  destruct (common_length s1 Hv1) as [L1 HL1].
  destruct (common_length s2 Hv2) as [L2 HL2].
  assert (∀ n v', (n, v') ∈ joined s1 s2 →
            ∃ v, (n, v) ∈ s1 ∧ default [] (axes v') = default [] (axes v) ∧
                 field_length v' = L1 + L2) as Hj.
  { intros n v' ([n0 v] & [= -> ->] & Hin)%list_elem_of_fmap. exists v.
    split_and!; [done..|]. unfold field_length. cbn.
    rewrite length_app. f_equal; [by apply (HL1 n0) |].
    apply length_col_of_key; [done |].
    apply (dict_eqb_keys s1 s2 n0 Heq), list_elem_of_fmap. by exists (n0, v). }
  apply validate_ok_intro.
  - intros n v' na Hin Hna. destruct (Hj n v' Hin) as (v & Hv & Hax & _).
    rewrite keys_joined. rewrite Hax in Hna.
    exact (validate_ok_axes s1 n v na Hv1 Hv Hna).
  - intros n v n' v' Hin Hin'.
    destruct (Hj n v Hin) as (_ & _ & _ & ->).
    by destruct (Hj n' v' Hin') as (_ & _ & _ & ->).
Qed.

(** X6: when the structures of two stores are defined and equal,
    [self + newdata] returns the fields of [self] in the order of [self],
    with their axes and units, and with the values of [self] followed by the
    values of the field of the same name of [newdata]; the operands are only
    default filled. *)
Theorem add_concatenates (s1 s2 : DataDict) (t1 t2 : dict (list string * string)) :
  NoDup (keys s1) →
  (structure s1).2 = Ok t1 → (structure s2).2 = Ok t2 → dict_eqb t1 t2 = true →
  add (s1, s2) = ((filled s1, filled s2), Ok (joined s1 s2)).
Proof.
  intros Hnd [Hv1 ->]%structure_inv [Hv2 ->]%structure_inv Heq.
  by apply add_ok.
Qed.

(** X7: the dict that [__add__] returns has the fields of [self], each
    with axes, unit and values; every axis it names is one of its fields,
    and all its fields hold the same number of values. *)
Theorem add_result_consistent (s1 s2 : DataDict) (r : dict Field) :
  NoDup (keys s1) → (add (s1, s2)).2 = Ok r →
  keys r = keys s1
  ∧ (∀ k f, (k, f) ∈ r →
       is_Some (axes f) ∧ is_Some (unit_ f) ∧ is_Some (values f))
  ∧ (∀ k f a, (k, f) ∈ r → a ∈ default [] (axes f) → a ∈ keys r)
  ∧ (∀ k f k' f', (k, f) ∈ r → (k', f') ∈ r →
       field_length f = field_length f').
Proof.
  intros Hnd Hadd. destruct (add_inv s1 s2 r Hadd) as (Hv1 & Hv2 & Heq).
  rewrite (add_ok s1 s2 Hv1 Hv2 Heq Hnd) in Hadd. injection Hadd as <-.
  pose proof (validate_joined s1 s2 Hv1 Hv2 Heq) as Hvj.
  split_and!.
  - apply keys_joined.
  - intros k f ([k0 v0] & [= -> ->] & _)%list_elem_of_fmap. cbn. eauto.
  - intros k f a Hin Ha. exact (validate_ok_axes _ k f a Hvj Hin Ha).
  - intros k f k' f' Hin Hin'. exact (validate_ok_length _ k f k' f' Hvj Hin Hin').
Qed.

Lemma dict_get_fmap {A B} (f : string * A → B) (d : dict A) k :
  dict_get ((λ nv, (nv.1, f nv)) <$> d) k = (λ v, f (k, v)) <$> dict_get d k.
Proof.
  induction d as [|[k' v] d IH]; [done |]. rewrite fmap_cons. cbn [dict_get fst].
  case_decide; [by subst | done].
Qed.

Lemma dict_set_fmap {A B} (f : string * A → B) (d : dict A) k (v : A) (e : B) :
  NoDup (keys d) → dict_get d k = Some v →
  dict_set ((λ nv, (nv.1, f nv)) <$> d) k e
  = (λ nv, (nv.1, if decide (nv.1 = k) then e else f nv)) <$> d.
Proof.
  induction d as [|[k' v'] d IH]; [done |]. unfold keys. rewrite fmap_cons.
  intros [Hk Hnd]%NoDup_cons. rewrite !fmap_cons. cbn [dict_get dict_set fst].
  destruct (decide (k' = k)) as [->|Hne].
  - intros _. f_equal. apply list_fmap_ext. intros _ [k2 v2] Hin%list_elem_of_lookup_2.
    cbn. rewrite decide_False; [done |]. intros ->. apply Hk.
    apply list_elem_of_fmap. by exists (k, v2).
  - intros Hget. f_equal. by apply IH.
Qed.

Lemma append_loop_spec (s1 s2 : DataDict) (P : list string) (todo : DataDict) :
  NoDup (keys s1) → NoDup (P ++ keys todo) →
  (∀ k v, (k, v) ∈ todo → k ∈ keys s1 ∧ col_of s2 k = default [] (values v)) →
  append_loop (appended P s1 s2) (filled todo)
  = (appended (P ++ keys todo) s1 s2, Ok ()).
Proof.
  intros Hnd1. revert P. induction todo as [|[k v] todo IH]; intros P Hnd Htodo.
  { cbn. by rewrite app_nil_r. }
  destruct (Htodo k v) as [Hk1 Hcol]; [left |].
  change (filled ((k, v) :: todo)) with ((k, fill_defaults v) :: filled todo).
  change (keys ((k, v) :: todo)) with (k :: keys todo) in *.
  assert (k ∉ P) as HkP.
  { apply NoDup_app in Hnd as (_ & Hdis & _). intros Hin. apply (Hdis k Hin). left. }
  destruct (dict_get s1 k) as [v1|] eqn:Hget; [|by apply dict_get_None in Hget].
  cbn [append_loop]. unfold getitem, appended at 1 2.
  rewrite dict_get_fmap, Hget. cbn [fmap option_fmap option_map fst snd].
  rewrite bool_decide_false by done.
  cbn [mbind result_bind rbind get_values fill_defaults values axes unit_].
  rewrite (dict_set_fmap _ s1 k v1) by done.
  match goal with
  | |- append_loop ?a _ = _ =>
      assert (a = appended (P ++ [k]) s1 s2) as ->
  end.
  { unfold appended. apply list_fmap_ext. intros _ [k2 v2] Hin%list_elem_of_lookup_2.
    cbn [fst snd]. f_equal. destruct (decide (k2 = k)) as [->|Hne].
    - rewrite bool_decide_true by (apply elem_of_app; right; left).
      assert (v2 = v1) as ->.
      { apply (elem_of_dict_get _ _ _ Hnd1) in Hin. congruence. }
      by rewrite Hcol.
    - rewrite (bool_decide_ext (k2 ∈ P ++ [k]) (k2 ∈ P)); [done |].
      rewrite elem_of_app, list_elem_of_singleton. tauto. }
  rewrite IH.
  - by rewrite <-app_assoc.
  - by rewrite <-app_assoc.
  - intros k' v' Hin. apply Htodo. by right.
Qed.

Lemma appended_nil s1 s2 : appended [] s1 s2 = filled s1.
Proof.
  unfold appended, filled. apply list_fmap_ext. intros _ nv _.
  by rewrite bool_decide_false by apply not_elem_of_nil.
Qed.

Lemma appended_all P s1 s2 :
  (∀ k, k ∈ keys s1 → k ∈ P) → appended P s1 s2 = joined s1 s2.
Proof.
  intros H. unfold appended, joined.
  apply list_fmap_ext. intros _ [k v] Hin%list_elem_of_lookup_2. cbn [fst snd].
  rewrite bool_decide_true; [done |]. apply H, list_elem_of_fmap. by exists (k, v).
Qed.

Lemma dict_eqb_sym {A} `{EqDecision A} (d1 d2 : dict A) :
  dict_eqb d1 d2 = dict_eqb d2 d1.
Proof. unfold dict_eqb. apply bool_decide_ext. split; by intros ->. Qed.

(** X8: whenever [self + newdata] returns a store, [self.append(newdata)]
    leaves [self] equal to that store, leaves [newdata] default filled, and
    returns without raising. *)
Theorem append_is_add_in_place (s1 s2 r : DataDict) :
  NoDup (keys s1) → NoDup (keys s2) →
  (add (s1, s2)).2 = Ok r →
  append (s1, s2) = ((r, filled s2), Ok ()).
Proof.
  intros Hnd1 Hnd2 Hadd. destruct (add_inv s1 s2 r Hadd) as (Hv1 & Hv2 & Heq).
  rewrite (add_ok s1 s2 Hv1 Hv2 Heq Hnd1) in Hadd. injection Hadd as <-.
  unfold append, mbind, M_bind, bind, on_self, on_newdata. cbn [fst snd].
  rewrite (structure_ok s1 Hv1). cbn [fst snd].
  rewrite (structure_ok s2 Hv2), Heq. unfold append_values. cbn [fst snd].
  rewrite <-(appended_nil s1 s2), (append_loop_spec s1 s2 [] s2); [|done..|].
  - cbn [app]. rewrite appended_all; [done |].
    intros k. apply (dict_eqb_keys s1 s2 k Heq).
  - intros k v Hin. split.
    + rewrite dict_eqb_sym in Heq. apply (dict_eqb_keys s2 s1 k Heq).
      apply list_elem_of_fmap. by exists (k, v).
    + unfold col_of. by rewrite (elem_of_dict_get _ _ _ Hnd2 Hin).
Qed.

(** ** [_value_dict] *)

Lemma value_name_filled use_units k v :
  value_name use_units k (fill_defaults v) = Ok (shown_name use_units k v).
Proof.
  unfold value_name, shown_name. destruct use_units; [|done]. cbn.
  by destruct (decide (default "" (unit_ v) ≠ "")); 
    [rewrite bool_decide_true | rewrite bool_decide_false].
Qed.

Lemma value_dict_loop_filled use_units (items : DataDict) (ret : dict (list scalar)) :
  value_dict_loop use_units (filled items) ret
  = Ok (foldl (λ r nv, dict_set r (shown_name use_units nv.1 nv.2)
                         (default [] (values nv.2))) ret items).
Proof.
  revert ret. induction items as [|[k v] items IH]; intros ret; [done |].
  change (filled ((k, v) :: items)) with ((k, fill_defaults v) :: filled items).
  cbn [value_dict_loop]. rewrite value_name_filled. cbn. apply IH.
Qed.

Lemma value_dict_ok use_units (s : DataDict) :
  (validate s).2 = Ok true →
  _value_dict use_units s
  = (filled s,
     Ok (foldl (λ r nv, dict_set r (shown_name use_units nv.1 nv.2)
                          (default [] (values nv.2))) [] s)).
Proof.
  intros Hv%validate_ok_state. unfold _value_dict, mbind, M_bind, bind.
  rewrite Hv. unfold get, lift. by rewrite value_dict_loop_filled.
Qed.

(** X9: on a store that validates, [_value_dict()] lists every field
    under its name with its values, in the order of the store. *)
Theorem value_dict_plain (s : DataDict) :
  (validate s).2 = Ok true → NoDup (keys s) →
  (_value_dict false s).2 = Ok ((λ nv, (nv.1, default [] (values nv.2))) <$> s).
Proof.
  intros Hv Hnd. rewrite (value_dict_ok false s Hv). cbn [snd]. f_equal.
  by rewrite (foldl_dict_set_fresh (λ nv, shown_name false nv.1 nv.2)).
Qed.

Lemma label_ok (s : DataDict) k v :
  (validate s).2 = Ok true → dict_get s k = Some v →
  (label k s).2 = Ok (shown_name true k v).
Proof.
  intros Hv%validate_ok_state Hg.
  unfold label, mbind, M_bind, bind, contains. rewrite Hv. cbn [get lift snd].
  rewrite keys_filled, bool_decide_true by eauto using dict_get_Some_keys.
  cbn [negb]. unfold getitem. rewrite dict_get_filled, Hg. cbn.
  unfold shown_name. cbn.
  by destruct (decide (default "" (unit_ v) ≠ ""));
    [rewrite bool_decide_true | rewrite bool_decide_false].
Qed.

(** X10: on a store that validates, the keys of [_value_dict(True)] are
    the labels of the fields, as [label] gives them, and every entry holds the
    values of a field with that label. *)
Theorem value_dict_keys_are_labels (s : DataDict) :
  (validate s).2 = Ok true → NoDup (keys s) →
  ∃ r, (_value_dict true s).2 = Ok r
       ∧ (∀ lab, lab ∈ keys r ↔ ∃ k, k ∈ keys s ∧ (label k s).2 = Ok lab)
       ∧ (∀ lab vals, dict_get r lab = Some vals →
            ∃ k v, (k, v) ∈ s ∧ (label k s).2 = Ok lab
                   ∧ vals = default [] (values v)).
Proof.
  intros Hv Hnd. eexists. rewrite (value_dict_ok true s Hv). split; [done |].
  split.
  - intros lab.
    rewrite (foldl_dict_set_keys (λ nv, shown_name true nv.1 nv.2)). split.
    + intros [[]%elem_of_nil|([k v] & Hin & <-)]. exists k. split.
      * apply list_elem_of_fmap. by exists (k, v).
      * apply label_ok; [done |]. by apply elem_of_dict_get.
    + intros (k & Hk & Hlab). right.
      destruct (dict_get s k) as [v|] eqn:E; [|by apply dict_get_None in E].
      exists (k, v). split; [by apply dict_get_elem_of |].
      rewrite (label_ok s k v Hv E) in Hlab. by injection Hlab.
  - intros lab vals
      [[=]|([k v] & Hin & <- & <-)]%(foldl_dict_set_get (λ nv, shown_name true nv.1 nv.2)).
    exists k, v. split_and!; [done | | done].
    apply label_ok; [done |]. by apply elem_of_dict_get.
Qed.

(** ** [to_xarray] and the names that are no dependents *)

Lemma unstack_xr_DataArray_cases (df : DataFrame) :
  (∃ w, unstack (xr_DataArray df) "dim_0" = Raise (LibraryError w)) ∨
  (∃ rest d dt,
     unstack (xr_DataArray df) "dim_0"
     = Ok {| dims := ("dim_1", ColumnIndex [df_column df]) :: rest;
             data := d; dtype_of := dt |}
     ∧ Forall (λ kv, is_MultiIndex kv.2 = false) rest).
Proof.
  unfold unstack, xr_DataArray. cbn [dims].
  assert (list_find (λ d : string * Index, d.1 = "dim_0")
            [("dim_0", MultiIndex (df_names df) (df_index df));
             ("dim_1", ColumnIndex [df_column df])]
          = Some (0, ("dim_0", MultiIndex (df_names df) (df_index df)))) as ->
    by reflexivity.
  cbn [take drop app]. case_decide; [right | left]; [|by eauto].
  eexists _, _, _. split; [done |].
  apply Forall_forall. intros [k idx] Hin%elem_of_zip_r.
  by apply list_elem_of_fmap in Hin as (l & -> & _).
Qed.

Lemma to_xarray_step_column (self : DataDict) (c : string) (rest : dict Index)
    (d : list scalar) (dt : dtype) :
  Forall (λ kv, is_MultiIndex kv.2 = false) rest →
  ∃ arr, to_xarray_step self
           {| dims := ("dim_1", ColumnIndex [c]) :: rest; data := d;
              dtype_of := dt |} "dim_1"
         = Ok arr.
Proof.
  intros Hrest. unfold to_xarray_step, getitem.
  destruct (dict_get _ "dim_1") as [idx|] eqn:E; cycle 1.
  { apply dict_get_None in E. destruct E. apply elem_of_keys_to_dict. left. }
  cbn [mbind result_bind rbind].
  destruct (negb (contains self "dim_1")); [|by eauto].
  assert (is_MultiIndex idx = false) as ->.
  { apply (foldl_dict_set_get fst snd) in E as [E|(x & Hx & _ & <-)]; [done |].
    apply elem_of_cons in Hx as [->|Hx]; [done |].
    by apply (proj1 (Forall_forall _ _) Hrest) in Hx. }
  rewrite squeeze_drop_column. eauto.
Qed.

Lemma to_xarray_step_frame (self : DataDict) (df : DataFrame) :
  to_xarray_step self (xr_DataArray df) "dim_0"
  = if negb (contains self "dim_0") then unstack (xr_DataArray df) "dim_0"
    else Ok (xr_DataArray df).
Proof. reflexivity. Qed.

Lemma to_xarray_loop_frame_raise (self : DataDict) (df : DataFrame) e :
  to_xarray_loop self (xr_DataArray df) ["dim_0"; "dim_1"] = Raise e →
  ∃ w, e = LibraryError w.
Proof.
  cbn [to_xarray_loop]. rewrite to_xarray_step_frame.
  destruct (negb (contains self "dim_0")).
  - destruct (unstack_xr_DataArray_cases df) as [(w & ->)|(rest & d & dt & -> & Hrest)].
    + intros [= <-]. eauto.
    + cbn [mbind result_bind rbind].
      destruct (to_xarray_step_column self (df_column df) rest d dt Hrest)
        as [arr ->].
      done.
  - cbn [mbind result_bind rbind].
    unfold to_xarray_step. cbn.
    by destruct (negb (contains self "dim_1")).
Qed.

(** X13: on a store that validates, [to_xarray(name)] raises
    [KeyError(name)] exactly when [name] is no field with axes: absent, or
    without axes. *)
Theorem to_xarray_KeyError_iff (s : DataDict) (n : string) :
  (validate s).2 = Ok true → NoDup (keys s) →
  (to_xarray n s).2 = Raise (KeyError n) ↔
  ¬ ∃ v, dict_get s n = Some v ∧ default [] (axes v) ≠ [].
Proof.
  intros Hvalid Hnd.
  destruct (to_multiindex_dataframes_ok s Hvalid Hnd) as (dfs & Hdfs & Hget).
  unfold to_xarray, mbind, M_bind, bind. rewrite Hdfs.
  unfold lift at 1, getitem. rewrite Hget.
  destruct (dict_get s n) as [v|] eqn:Hn; cycle 1.
  { split; [|done]. by intros _ (v & ? & _). }
  destruct (decide (default [] (axes v) = [])) as [Hax|Hax].
  { split; [|done]. intros _ (v' & [= <-] & ?). done. }
  split; [|intros []; eauto].
  unfold get, lift. cbn [snd]. intros H. exfalso.
  change (keys (indexes (xr_DataArray (frame_of s n v)))) with ["dim_0"; "dim_1"] in H.
  by apply to_xarray_loop_frame_raise in H as [w ?].
Qed.

(** ** The tabulator, with and without units *)

Lemma unit_name_filled (s : DataDict) use_units name :
  name ∈ keys s →
  unit_name (filled s) use_units name = Ok (label_of s use_units name).
Proof.
  intros Hk. unfold unit_name, label_of, getitem. rewrite dict_get_filled.
  destruct (dict_get s name) as [v|] eqn:E; [|by apply dict_get_None in E].
  unfold shown_name. destruct use_units; [|done]. cbn.
  by destruct (decide (default "" (unit_ v) ≠ ""));
    [rewrite bool_decide_true | rewrite bool_decide_false].
Qed.

Section tabulator.
Context (s : DataDict) (use_units : bool).
Hypothesis Hvalid : (validate s).2 = Ok true.

Lemma multiindex_dataframe_units n v :
  (n, v) ∈ s → default [] (axes v) ≠ [] →
  multiindex_dataframe (filled s) use_units n (fill_defaults v)
  = Ok (table_of s use_units n v).
Proof.
  intros Hin Hax. unfold multiindex_dataframe. cbn.
  rewrite (rmapM_ok _ (λ a, (col_of s a, label_of s use_units a))); cycle 1.
  { apply Forall_forall. intros a Ha.
    assert (a ∈ keys s) as Hk by exact (validate_ok_axes s n v a Hvalid Hin Ha).
    unfold getitem. rewrite dict_get_filled. unfold col_of.
    destruct (dict_get s a) as [va|] eqn:E; [|by apply dict_get_None in E].
    cbn. by rewrite unit_name_filled. }
  cbn. rewrite <-!list_fmap_compose.
  rewrite (list_fmap_ext (snd ∘ _) (label_of s use_units) (default [] (axes v))) by done.
  rewrite (list_fmap_ext (fst ∘ _) (col_of s) (default [] (axes v))) by done.
  rewrite unit_name_filled; cycle 1.
  { apply list_elem_of_fmap. by exists (n, v). }
  cbn. unfold pd_DataFrame. rewrite decide_True; [done |].
  symmetry. exact (length_rows_of s Hvalid n v Hin Hax).
Qed.

Lemma multiindex_loop_units items dfs :
  items ⊆ s → NoDup (keys items) →
  ∃ dfs', multiindex_loop (filled s) use_units (filled items) dfs = Ok dfs' ∧
    ∀ k, dict_get dfs' k =
           match dict_get items k with
           | Some v => if decide (default [] (axes v) = []) then dict_get dfs k
                       else Some (table_of s use_units k v)
           | None => dict_get dfs k
           end.
Proof.
  revert dfs. induction items as [|[n v] items IH]; intros dfs Hsub Hnd.
  - exists dfs. done.
  - change (filled ((n, v) :: items)) with ((n, fill_defaults v) :: filled items).
    cbn [multiindex_loop]. cbn [get_axes fill_defaults axes mbind result_bind rbind].
    assert ((n, v) ∈ s) as Hin by (apply Hsub; left).
    assert (items ⊆ s) as Hsub' by (intros x Hx; apply Hsub; by right).
    unfold keys in Hnd. rewrite fmap_cons in Hnd. apply NoDup_cons in Hnd as [Hn Hnd].
    cbn [fst] in Hn. assert (dict_get items n = None) as Hn' by (by apply dict_get_None).
    destruct (decide (length (default [] (axes v)) = 0)) as [Hlen|Hlen].
    + destruct (IH dfs Hsub' Hnd) as (dfs' & -> & Hget). exists dfs'. split; [done |].
      intros k. rewrite Hget. cbn [dict_get]. case_decide as Hk; [|done]. subst k.
      rewrite Hn'.
      rewrite decide_True; [done |]. by destruct (default [] (axes v)).
    + assert (default [] (axes v) ≠ []) as Hax by (by intros E; rewrite E in Hlen).
      rewrite multiindex_dataframe_units by done. cbn.
      destruct (IH (dict_set dfs n (table_of s use_units n v)) Hsub' Hnd)
        as (dfs' & -> & Hget).
      exists dfs'. split; [done |].
      intros k. rewrite Hget, dict_get_set. cbn [dict_get].
      destruct (decide (n = k)) as [->|Hk].
      * rewrite Hn'. by rewrite decide_False.
      * done.
Qed.
End tabulator.

Lemma to_multiindex_dataframes_units_ok (s : DataDict) (use_units : bool) :
  (validate s).2 = Ok true → NoDup (keys s) →
  ∃ dfs, to_multiindex_dataframes use_units s = (filled s, Ok dfs) ∧
    ∀ k, dict_get dfs k =
           match dict_get s k with
           | Some v => if decide (default [] (axes v) = []) then None
                       else Some (table_of s use_units k v)
           | None => None
           end.
Proof.
  intros Hvalid Hnd.
  destruct (multiindex_loop_units s use_units Hvalid s [] (reflexivity _) Hnd)
    as (dfs & Hl & Hget).
  exists dfs. split; [|done].
  unfold to_multiindex_dataframes, mbind, M_bind, bind.
  rewrite (validate_ok_state s Hvalid). cbn. by rewrite Hl.
Qed.

(** X11: on a store that validates, the tabulator does not raise, with or
    without units, and it returns a table for the fields with axes and for no
    other name: the table of a field has the field's values, the rows of its
    axes, and the names that [use_units] asks for. *)
Theorem to_multiindex_dataframes_tables (s : DataDict) (use_units : bool) :
  (validate s).2 = Ok true → NoDup (keys s) →
  ∃ dfs, (to_multiindex_dataframes use_units s).2 = Ok dfs ∧
    ∀ k, dict_get dfs k =
           match dict_get s k with
           | Some v => if decide (default [] (axes v) = []) then None
                       else Some (table_of s use_units k v)
           | None => None
           end.
Proof.
  intros Hvalid Hnd.
  destruct (to_multiindex_dataframes_units_ok s use_units Hvalid Hnd)
    as (dfs & Hdfs & Hget).
  exists dfs. by rewrite Hdfs.
Qed.

(** X12: a table of the tabulator has as many rows as values, and the row
    at a position is the tuple of the values of the field's axes at that
    position. *)
Theorem to_multiindex_dataframes_rows (s : DataDict) (use_units : bool)
    (dfs : dict DataFrame) (n : string) (df : DataFrame) :
  (validate s).2 = Ok true → NoDup (keys s) →
  (to_multiindex_dataframes use_units s).2 = Ok dfs →
  dict_get dfs n = Some df →
  ∃ v, dict_get s n = Some v
       ∧ df_values df = default [] (values v)
       ∧ length (df_index df) = length (df_values df)
       ∧ ∀ i t, df_index df !! i = Some t →
           Forall2 (λ x a, col_of s a !! i = Some x) t (default [] (axes v)).
Proof.
  intros Hvalid Hnd Hdfs Hdf.
  destruct (to_multiindex_dataframes_units_ok s use_units Hvalid Hnd)
    as (dfs' & Hdfs' & Hget).
  rewrite Hdfs' in Hdfs. injection Hdfs as ->.
  rewrite Hget in Hdf. destruct (dict_get s n) as [v|] eqn:Hn; [|done].
  case_decide as Hax; [done |]. injection Hdf as <-. exists v.
  split_and!; [done | done | |].
  - cbn. apply (length_rows_of s Hvalid n v); [by apply dict_get_elem_of | done].
  - cbn. unfold rows_of. intros i t Ht%zip_star_lookup.
    by apply Forall2_fmap_r in Ht.
Qed.

(** ** The mapping that [get_grid] builds for one field *)






(** ** The message of [validate] reports violations only *)

(** X5: what [validate] raises is a [ValueError] whose message is a
    newline followed by lines, at least one, each the line of an unknown axis
    or of a length that differs from the reference: the message reports
    violations only. *)
Theorem validate_message_sound (s : DataDict) (e : exn) :
  (validate s).2 = Raise e →
  ∃ lines, lines ≠ [] ∧ e = ValueError (nl +:+ cat lines) ∧
    Forall (λ line,
              (∃ n na, unknown_axis s n na ∧ line = axis_msg n na) ∨
              (∃ n len nv src, length_mismatch s n len nv src
                               ∧ line = length_msg n len nv src)) lines.
Proof.
  rewrite validate_spec. cbn [snd]. case_decide as Hl; [done |].
  intros [= <-]. exists (violation_lines s). split_and!; [done..|].
  apply Forall_forall. intros line Hin. by apply elem_of_violation_lines.
Qed.

(** ** Answers do not depend on an earlier validation *)

Lemma bind_validate_filled {A} (k : bool → M DataDict A) (s : DataDict) :
  (validate ≫= k) (filled s) = (validate ≫= k) s.
Proof.
  unfold mbind, M_bind, bind.
  by rewrite !validate_spec, filled_idemp, violation_lines_filled.
Qed.

Lemma bind_same_start {S A B} (m : M S A) (k : A → M S B) (t t' : S) :
  m t = m t' → (m ≫= k) t = (m ≫= k) t'.
Proof. unfold mbind, M_bind, bind. by intros ->. Qed.

(** X4: on a store whose defaults are filled already, every query gives
    what it gives on the store as it was: the mutation by an earlier
    validation changes no answer. *)
Theorem queries_on_filled_store (s : DataDict) (name : string) (use_units : bool) :
  structure (filled s) = structure s
  ∧ label name (filled s) = label name s
  ∧ dependents (filled s) = dependents s
  ∧ _value_dict use_units (filled s) = _value_dict use_units s
  ∧ to_multiindex_dataframes use_units (filled s)
    = to_multiindex_dataframes use_units s
  ∧ to_xarray name (filled s) = to_xarray name s.
Proof.
  split_and!; try apply bind_validate_filled.
  unfold to_xarray. apply bind_same_start, bind_validate_filled.
Qed.

(** ** Gridding rows that are in the order of the grid *)





(** ** Instances *)

Lemma validate_failure_propagates_witness :
  (structure bad_store).2 = Raise (ValueError (nl +:+ axis_msg "a" "b"))
  ∧ (label "a" bad_store).2 = Raise (ValueError (nl +:+ axis_msg "a" "b"))
  ∧ (dependents bad_store).2 = Raise (ValueError (nl +:+ axis_msg "a" "b"))
  ∧ (_value_dict true bad_store).2 = Raise (ValueError (nl +:+ axis_msg "a" "b"))
  ∧ (to_multiindex_dataframes true bad_store).2
    = Raise (ValueError (nl +:+ axis_msg "a" "b"))
  ∧ (to_xarray "a" bad_store).2 = Raise (ValueError (nl +:+ axis_msg "a" "b"))
  ∧ (get_grid NoName true bad_store).2
    = Raise (ValueError (nl +:+ axis_msg "a" "b"))
  ∧ (get_grid (OneName "a") true bad_store).2
    = Raise (ValueError (nl +:+ axis_msg "a" "b"))
  ∧ (get_grid (Names ["a"]) true bad_store).2
    = Raise (ValueError (nl +:+ axis_msg "a" "b"))
  ∧ (add (bad_store, example_store)).2
    = Raise (ValueError (nl +:+ axis_msg "a" "b"))
  ∧ (append (bad_store, example_store)).2
    = Raise (ValueError (nl +:+ axis_msg "a" "b")).
Proof.
  apply (validate_failure_propagates bad_store example_store _ "a" "a" [] true true).
  reflexivity.
Defined.

Lemma validate_message_sound_witness :
  ∃ lines, lines ≠ [] ∧
    ValueError (nl +:+ axis_msg "a" "b") = ValueError (nl +:+ cat lines) ∧
    Forall (λ line,
              (∃ n na, unknown_axis bad_store n na ∧ line = axis_msg n na) ∨
              (∃ n len nv src, length_mismatch bad_store n len nv src
                               ∧ line = length_msg n len nv src)) lines.
Proof. apply (validate_message_sound bad_store). reflexivity. Defined.

Lemma add_concatenates_witness :
  add (example_store, example_store)
  = ((filled example_store, filled example_store),
     Ok (joined example_store example_store)).
Proof.
  apply (add_concatenates example_store example_store
           (structure_of example_store) (structure_of example_store)).
  - by_evaluation.
  - vm_compute. reflexivity.
  - vm_compute. reflexivity.
  - vm_compute. reflexivity.
Defined.

Lemma add_result_consistent_witness :
  keys (joined example_store example_store) = keys example_store
  ∧ (∀ k f, (k, f) ∈ joined example_store example_store →
       is_Some (axes f) ∧ is_Some (unit_ f) ∧ is_Some (values f))
  ∧ (∀ k f a, (k, f) ∈ joined example_store example_store →
       a ∈ default [] (axes f) → a ∈ keys (joined example_store example_store))
  ∧ (∀ k f k' f', (k, f) ∈ joined example_store example_store →
       (k', f') ∈ joined example_store example_store →
       field_length f = field_length f').
Proof.
  apply (add_result_consistent example_store example_store).
  - by_evaluation.
  - vm_compute. reflexivity.
Defined.

Lemma append_is_add_in_place_witness :
  append (example_store, example_store)
  = ((joined example_store example_store, filled example_store), Ok ()).
Proof.
  apply (append_is_add_in_place example_store example_store).
  - by_evaluation.
  - by_evaluation.
  - vm_compute. reflexivity.
Defined.

Lemma value_dict_plain_witness :
  (_value_dict false example_store).2
  = Ok ((λ nv, (nv.1, default [] (values nv.2))) <$> example_store).
Proof.
  apply (value_dict_plain example_store); [reflexivity | by_evaluation].
Defined.

Lemma value_dict_keys_are_labels_witness :
  ∃ r, (_value_dict true example_store).2 = Ok r
       ∧ (∀ lab, lab ∈ keys r ↔
            ∃ k, k ∈ keys example_store ∧ (label k example_store).2 = Ok lab)
       ∧ (∀ lab vals, dict_get r lab = Some vals →
            ∃ k v, (k, v) ∈ example_store ∧ (label k example_store).2 = Ok lab
                   ∧ vals = default [] (values v)).
Proof.
  apply (value_dict_keys_are_labels example_store); [reflexivity | by_evaluation].
Defined.

Lemma to_multiindex_dataframes_tables_witness :
  ∃ dfs, (to_multiindex_dataframes true example_store).2 = Ok dfs ∧
    ∀ k, dict_get dfs k =
           match dict_get example_store k with
           | Some v => if decide (default [] (axes v) = []) then None
                       else Some (table_of example_store true k v)
           | None => None
           end.
Proof.
  apply (to_multiindex_dataframes_tables example_store true);
    [reflexivity | by_evaluation].
Defined.

Lemma to_multiindex_dataframes_rows_witness :
  ∃ v, dict_get example_store "amplitude" = Some v
       ∧ [Num 1; Num 2; Num 3; Num 4] = default [] (values v)
       ∧ length [[Num 1; Num 0]; [Num 1; Num 1]; [Num 2; Num 0]; [Num 2; Num 1]]
         = length [Num 1; Num 2; Num 3; Num 4]
       ∧ ∀ i t,
           [[Num 1; Num 0]; [Num 1; Num 1]; [Num 2; Num 0]; [Num 2; Num 1]] !! i
           = Some t →
           Forall2 (λ x a, col_of example_store a !! i = Some x) t
             (default [] (axes v)).
Proof.
  apply (to_multiindex_dataframes_rows example_store false
           [("amplitude",
             {| df_names := ["freq"; "power"];
                df_index := [[Num 1; Num 0]; [Num 1; Num 1];
                             [Num 2; Num 0]; [Num 2; Num 1]];
                df_column := "amplitude";
                df_values := [Num 1; Num 2; Num 3; Num 4] |})]
           "amplitude"
           {| df_names := ["freq"; "power"];
              df_index := [[Num 1; Num 0]; [Num 1; Num 1];
                           [Num 2; Num 0]; [Num 2; Num 1]];
              df_column := "amplitude";
              df_values := [Num 1; Num 2; Num 3; Num 4] |}).
  - reflexivity.
  - by_evaluation.
  - vm_compute. reflexivity.
  - reflexivity.
Defined.

Lemma to_xarray_KeyError_iff_witness :
  (to_xarray "freq" example_store).2 = Raise (KeyError "freq") ↔
  ¬ ∃ v, dict_get example_store "freq" = Some v ∧ default [] (axes v) ≠ [].
Proof.
  apply (to_xarray_KeyError_iff example_store "freq"); [reflexivity | by_evaluation].
Defined.


